(** * git-repo-manager.py: a shallow embedding and its properties

    The script is a linear sequence of external commands, console output and
    operator prompts. Its text values are Python [str] values (sequences of
    Unicode code points); its effects are modelled by a small monad that
    reads the history of the run, asks the machine for the result of each
    call and records the events the script produces. *)

From Stdlib Require Import String Ascii List NArith ZArith Bool Lia.
Import ListNotations.

(** ** Python text *)

Module PyStr.

(** A Python [str]: a sequence of code points. *)
Definition str := list N.

(** An ASCII literal of the source, as code points. *)
Definition py (s : string) : str := map N_of_ascii (list_ascii_of_string s).

Definition nl : N := 10%N.     (* "\n" *)
Definition sp : N := 32%N.     (* " " *)
Definition dq : N := 34%N.     (* the double quote *)

(** [a == b] *)
Fixpoint eqb (a b : str) : bool :=
  match a, b with
  | [], [] => true
  | x :: a', y :: b' => N.eqb x y && eqb a' b'
  | _, _ => false
  end.

(** [s.startswith(p)] *)
Fixpoint startswith (s p : str) {struct p} : bool :=
  match p with
  | [] => true
  | x :: p' =>
      match s with
      | y :: s' => N.eqb x y && startswith s' p'
      | [] => false
      end
  end.

(** [s.endswith(p)] *)
Definition endswith (s p : str) : bool := startswith (rev s) (rev p).

(** [n in s] for two strings: [n] occurs in [s] as a contiguous run. *)
Fixpoint contains (n s : str) : bool :=
  startswith s n ||
  match s with
  | [] => false
  | _ :: s' => contains n s'
  end.

(** The code points Python's [str.strip()] and [str.split()] treat as
    whitespace (those with [str.isspace()] true). *)
Definition isspace (c : N) : bool :=
  ((9 <=? c) && (c <=? 13) || (28 <=? c) && (c <=? 32)
   || (c =? 0x85) || (c =? 0xA0) || (c =? 0x1680)
   || (0x2000 <=? c) && (c <=? 0x200A)
   || (c =? 0x2028) || (c =? 0x2029) || (c =? 0x202F)
   || (c =? 0x205F) || (c =? 0x3000))%N.

Fixpoint lstrip (s : str) : str :=
  match s with
  | [] => []
  | c :: s' => if isspace c then lstrip s' else s
  end.

Definition rstrip (s : str) : str := rev (lstrip (rev s)).

(** [s.strip()] *)
Definition strip (s : str) : str := rstrip (lstrip s).

(** [s.lower()] on the ASCII letters. Case mapping of other code points is
    not modelled: the script only compares the result with ["y"], and
    U+0059 is the only code point whose lower case is U+0079. *)
Definition lower_char (c : N) : N :=
  if ((65 <=? c) && (c <=? 90))%N then (c + 32)%N else c.

Definition lower (s : str) : str := map lower_char s.

(** [s.split(c)] for a one-character separator. *)
Fixpoint split_char (c : N) (s : str) : list str :=
  match s with
  | [] => [[]]
  | x :: s' =>
      if N.eqb x c then [] :: split_char c s'
      else match split_char c s' with
           | w :: ws => (x :: w) :: ws
           | [] => [[x]]
           end
  end.

(** [s.split()]: the maximal runs of non-whitespace code points. *)
Fixpoint split (s : str) : list str :=
  match s with
  | [] => []
  | c :: s' =>
      if isspace c then split s'
      else match s' with
           | [] => [[c]]
           | d :: _ =>
               if isspace d then [c] :: split s'
               else match split s' with
                    | w :: ws => (c :: w) :: ws
                    | [] => [[c]]
                    end
           end
  end.

(** [sep.join(parts)] *)
Fixpoint join (sep : str) (parts : list str) : str :=
  match parts with
  | [] => []
  | [p] => p
  | p :: ps => p ++ sep ++ join sep ps
  end.

(** Truth value of a string: only the empty string is false. *)
Definition truthy (s : str) : bool :=
  match s with [] => false | _ :: _ => true end.

(** [n] occurs in [s]: some text before it, some text after it. *)
Definition Substr (n s : str) : Prop := exists p q, s = p ++ n ++ q.

(** [os.path.join(a, b)] of [posixpath], the [os.path] of every platform
    but native Windows. *)
Definition posixpath_join (a b : str) : str :=
  if startswith b (py "/") then b
  else if negb (truthy a) || endswith a (py "/") then a ++ b
  else a ++ py "/" ++ b.

End PyStr.

Import PyStr.

(** ** The machine and the run *)

(** What the script does that the outside can see, in the order it does it. *)
Inductive Event :=
| EPrint (text : str)                          (* print(text) *)
| EShell (cmd : str) (check capture : bool)    (* subprocess.run(cmd, shell=True, ...) *)
| ESpawn (argv : list str)                     (* subprocess.call / subprocess.run on an argument vector *)
| EInput (prompt : str)                        (* input(prompt) *)
| EMakedirs (path : str)                       (* os.makedirs(path, exist_ok=True) *)
| EChdir (path : str).                         (* os.chdir(path) *)

Definition History := list Event.

(** A finished child process. *)
Record Completed := {
  returncode : Z;
  stdout : str;
  stderr : str
}.

(** The machine the script runs on. Every answer may depend on everything
    the script has done so far. A program given by an argument vector may
    be absent, and starting it then raises [FileNotFoundError]. The other
    calls into the operating system are taken to return: an [OSError] of the
    file system, the [EOFError] of a closed terminal or an interrupt is
    outside the model. *)
Record World := {
  sys_platform : str;                                   (* sys.platform *)
  CLONE_DIR : str;                                      (* os.path.expanduser("~/git") *)
  os_path_join : str -> str -> str;                     (* os.path.join: posixpath or ntpath *)
  os_path_exists : History -> str -> bool;
  os_path_isdir : History -> str -> bool;
  shell : History -> str -> bool -> Completed;          (* command line, output captured? *)
  spawn : History -> list str -> option Completed;      (* None: the program is not found *)
  stdin_line : History -> str -> str;                   (* the operator's answer to a prompt *)
  CalledProcessError_str : str -> Z -> str              (* str(e) of subprocess.CalledProcessError *)
}.

(** Python exceptions the script can meet. *)
Inductive Exn :=
| CalledProcessError (cmd : str) (code : Z)
| ValueError
| FileNotFoundError.

(** How a piece of the script ends: it returns a value, calls [sys.exit],
    or an exception propagates. *)
Inductive Outcome (A : Type) :=
| Ok (a : A)
| Exit (code : Z)
| Raise (e : Exn).

Arguments Ok {A} a.
Arguments Exit {A} code.
Arguments Raise {A} e.

(** A computation reads the history up to its start and yields its outcome
    together with the events it has added. *)
Definition M (A : Type) := History -> Outcome A * list Event.

Definition ret {A} (a : A) : M A := fun _ => (Ok a, []).

Definition bind {A B} (m : M A) (f : A -> M B) : M B := fun h =>
  match m h with
  | (Ok a, t) => let (o, t') := f a (h ++ t) in (o, t ++ t')
  | (Exit c, t) => (Exit c, t)
  | (Raise e, t) => (Raise e, t)
  end.

Declare Scope py_scope.
Delimit Scope py_scope with py.
Notation "x <- c1 ;; c2" := (bind c1 (fun x => c2))
  (at level 61, c1 at next level, right associativity) : py_scope.
Notation "' pat <- c1 ;; c2" := (bind c1 (fun x => match x with pat => c2 end))
  (at level 61, pat pattern, c1 at next level, right associativity) : py_scope.
Notation "c1 ;; c2" := (bind c1 (fun _ => c2))
  (at level 61, right associativity) : py_scope.
Local Open Scope py_scope.

Definition emit (e : Event) : M unit := fun _ => (Ok tt, [e]).

Definition sys_exit {A} (code : Z) : M A := fun _ => (Exit code, []).

Definition raise {A} (e : Exn) : M A := fun _ => (Raise e, []).

(** [try: body except subprocess.CalledProcessError as e: handler] *)
Definition try_except_CalledProcessError {A} (body : M A) (handler : str -> Z -> M A) : M A :=
  fun h =>
    match body h with
    | (Raise (CalledProcessError cmd code), t) =>
        let (o, t') := handler cmd code (h ++ t) in (o, t ++ t')
    | r => r
    end.

(** [for x in l: body x] *)
Fixpoint for_each {A} (l : list A) (body : A -> M unit) : M unit :=
  match l with
  | [] => ret tt
  | x :: l' => body x ;; for_each l' body
  end.

(** [a and b], the second operand evaluated only when the first is true. *)
Definition and_then (a b : M bool) : M bool :=
  x <- a ;; if x then b else ret false.

(** Truth value of what [run_command] returns: [None] and [""] are false. *)
Definition value_truthy (v : option str) : bool :=
  match v with
  | None => false
  | Some s => truthy s
  end.

(** [a or b], the second operand evaluated only when the first is false. *)
Definition or_else (a b : M (option str)) : M (option str) :=
  x <- a ;; if value_truthy x then ret x else b.

(** [name, url = record]: unpacking needs exactly two items. *)
Definition unpack2 (record : list str) : M (str * str) :=
  match record with
  | [a; b] => ret (a, b)
  | _ => raise ValueError
  end.

(** Exit status of the process for the outcome of [main]. *)
Definition exit_status {A} (o : Outcome A) : Z :=
  match o with
  | Ok _ => 0
  | Exit code => code
  | Raise _ => 1
  end.

(** ** The script *)

Section Script.

Variable w : World.

(** *** Primitive calls *)

Definition print (text : str) : M unit := emit (EPrint text).

(** [input(prompt)] *)
Definition input (prompt : str) : M str := fun h =>
  (Ok (stdin_line w h prompt), [EInput prompt]).

(** [subprocess.run(cmd, shell=True, check=check, ...)]: with [check], a
    non-zero exit status raises [CalledProcessError]. *)
Definition subprocess_run_shell (cmd : str) (check capture : bool) : M Completed := fun h =>
  let r := shell w h cmd capture in
  if check && negb (returncode r =? 0)%Z
  then (Raise (CalledProcessError cmd (returncode r)), [EShell cmd check capture])
  else (Ok r, [EShell cmd check capture]).

(** [subprocess.run(argv, capture_output=True, text=True)]: the finished
    process, or [FileNotFoundError] when the program cannot be started. *)
Definition subprocess_run (argv : list str) : M Completed := fun h =>
  match spawn w h argv with
  | Some result => (Ok result, [ESpawn argv])
  | None => (Raise FileNotFoundError, [ESpawn argv])
  end.

(** [subprocess.call(argv, stdout=DEVNULL, stderr=DEVNULL)]: the exit
    status, or [FileNotFoundError] when the program cannot be started. *)
Definition subprocess_call (argv : list str) : M Z := fun h =>
  match spawn w h argv with
  | Some result => (Ok (returncode result), [ESpawn argv])
  | None => (Raise FileNotFoundError, [ESpawn argv])
  end.

Definition path_exists (p : str) : M bool := fun h => (Ok (os_path_exists w h p), []).

Definition path_isdir (p : str) : M bool := fun h => (Ok (os_path_isdir w h p), []).

Definition os_makedirs (p : str) : M unit := emit (EMakedirs p).

Definition os_chdir (p : str) : M unit := emit (EChdir p).

(** *** Utility functions *)

Definition command_failed (cmd : str) (code : Z) : str :=
  [0x274C%N] ++ py " Command failed: " ++ cmd ++ [nl]
  ++ py "Error: " ++ CalledProcessError_str w cmd code.

(** [run_command(cmd, check, capture_output)]: the stripped standard output
    when capturing, [None] otherwise. *)
Definition run_command (cmd : str) (check capture_output : bool) : M (option str) :=
  try_except_CalledProcessError
    (if capture_output then
       result <- subprocess_run_shell cmd check true ;;
       ret (Some (strip (stdout result)))
     else
       subprocess_run_shell cmd check false ;;
       ret None)
    (fun c code =>
       print (command_failed c code) ;;
       sys_exit 1).

Definition detect_os : M str :=
  if startswith (sys_platform w) (py "linux") then
    apt <- path_exists (py "/usr/bin/apt") ;;
    if apt then ret (py "linux-apt")
    else
      dnf <- path_exists (py "/usr/bin/dnf") ;;
      if dnf then ret (py "linux-dnf")
      else
        yum <- path_exists (py "/usr/bin/yum") ;;
        if yum then ret (py "linux-yum")
        else ret (py "linux-unknown")
  else if eqb (sys_platform w) (py "darwin") then ret (py "macos")
  else if eqb (sys_platform w) (py "win32") || eqb (sys_platform w) (py "cygwin")
  then ret (py "windows")
  else ret (py "unknown").

(** *** Dependency management *)

Definition install_package (package : str) : M unit :=
  os_type <- detect_os ;;
  print ([0x1F527%N] ++ py " Installing " ++ package ++ py "...") ;;
  if eqb os_type (py "linux-apt") then
    run_command (py "sudo apt update -y && sudo apt install -y " ++ package) false false ;;
    ret tt
  else if eqb os_type (py "linux-dnf") then
    run_command (py "sudo dnf install -y " ++ package) false false ;;
    ret tt
  else if eqb os_type (py "linux-yum") then
    run_command (py "sudo yum install -y " ++ package) false false ;;
    ret tt
  else if eqb os_type (py "macos") then
    run_command (py "brew install " ++ package) false false ;;
    ret tt
  else if eqb os_type (py "windows") then
    if eqb package (py "git") then
      or_else (run_command (py "winget install --id Git.Git --silent") false false)
              (run_command (py "choco install git -y") false false) ;;
      ret tt
    else if eqb package (py "gh") then
      or_else (run_command (py "winget install --id GitHub.cli --silent") false false)
              (run_command (py "choco install gh -y") false false) ;;
      ret tt
    else ret tt
  else
    print ([0x26A0%N; 0xFE0F%N] ++ py " Unsupported OS: " ++ os_type
           ++ py ". Install " ++ package ++ py " manually.") ;;
    sys_exit 1.

Definition ensure_dependencies : M unit :=
  for_each [py "git"; py "gh"] (fun package =>
    rc <- subprocess_call [py "which"; package] ;;
    if negb (rc =? 0)%Z then install_package package
    else print ([0x2705%N] ++ py " " ++ package ++ py " is already installed.")).

(** *** Authentication and setup *)

Definition authenticate_github : M unit :=
  rc <- subprocess_call [py "gh"; py "auth"; py "status"] ;;
  if negb (rc =? 0)%Z then
    print ([0x1F511%N] ++ py " GitHub CLI authentication required.") ;;
    run_command (py "gh auth login") false false ;;
    ret tt
  else print ([0x2705%N] ++ py " GitHub authentication is already set up.").

Definition ssh_probe : list str := [py "ssh"; py "-T"; py "git@github.com"].

Definition ssh_checking : str := [0x1F50D%N] ++ py " Checking SSH access to GitHub...".

Definition ssh_working : str := [0x2705%N] ++ py " SSH authentication with GitHub is working.".

Definition ssh_failed (ssh_output : str) : str :=
  [0x26A0%N; 0xFE0F%N] ++ py " SSH authentication failed. Full output:" ++ [nl] ++ ssh_output.

Definition check_ssh_access : M unit :=
  print ssh_checking ;;
  result <- subprocess_run ssh_probe ;;
  let ssh_output := strip (stdout result ++ stderr result) in
  if contains (py "successfully authenticated") ssh_output
     || contains (py "does not provide shell access") ssh_output
  then print ssh_working
  else
    print (ssh_failed ssh_output) ;;
    sys_exit 1.

Definition get_github_user : M str :=
  username <- run_command (py "gh api user --jq .login") false true ;;
  match username with
  | Some u => if truthy u then ret u
              else (answer <- input (py "Enter your GitHub username: ") ;; ret (strip answer))
  | None => answer <- input (py "Enter your GitHub username: ") ;; ret (strip answer)
  end.

(** *** Repository synchronisation *)

Definition gh_repo_list (username : str) : str :=
  py "gh repo list " ++ username ++ py " --json name,url --jq '.[] | "
  ++ [dq] ++ py "\(.name) \(.url)" ++ [dq] ++ py "'".

Definition fetching_msg (username : str) : str :=
  [0x1F4E1%N] ++ py " Fetching repository list for " ++ username ++ py "...".

Definition none_found_msg : str :=
  [0x274C%N] ++ py " No repositories found or API call failed.".

Definition fetch_repos (username : str) : M (list (list str)) :=
  print (fetching_msg username) ;;
  repo_data <- run_command (gh_repo_list username) false true ;;
  match repo_data with
  | Some data =>
      if negb (truthy data) then
        print none_found_msg ;;
        ret []
      else ret (map (fun line => split (strip line)) (split_char nl data))
  | None =>
      print none_found_msg ;;
      ret []
  end.

(** The command lines of the sync engine. *)
Definition git_config_ff : str := py "git config --global pull.ff only".
Definition git_status : str := py "git status --porcelain".
Definition git_add : str := py "git add .".
Definition git_commit (repo_name : str) : str :=
  py "git commit -m " ++ [dq] ++ py "Auto-commit before pull: " ++ repo_name ++ [dq].
Definition git_push : str := py "git push origin $(git rev-parse --abbrev-ref HEAD)".
Definition git_rev_parse : str := py "git rev-parse --abbrev-ref HEAD".
Definition git_pull (current_branch : str) : str := py "git pull origin " ++ current_branch.
Definition git_clone (repo_url repo_path : str) : str :=
  py "git clone " ++ repo_url ++ py " " ++ repo_path.

Definition commit_prompt (repo_name : str) : str :=
  py "Commit all changes in " ++ repo_name ++ py "? (y/n): ".

Definition updating_msg (repo_name : str) : str :=
  [nl; 0x1F504%N] ++ py " Updating existing repo: " ++ repo_name.

Definition changes_msg (repo_name : str) : str :=
  [nl; 0x1F4DD%N] ++ py " Uncommitted changes detected in " ++ repo_name ++ py ":".

Definition cloning_msg (repo_name : str) : str :=
  [0x1F680%N] ++ py " Cloning new repository: " ++ repo_name.

(** [os.path.exists(p) and os.path.isdir(p) and os.path.exists(os.path.join(p, ".git"))] *)
Definition is_local_clone (repo_path : str) : M bool :=
  and_then (path_exists repo_path)
    (and_then (path_isdir repo_path)
       (path_exists (os_path_join w repo_path (py ".git")))).

(** Lines 170-179 of [clone_or_update_repos]: look for uncommitted changes
    and, when the operator agrees, stage, commit and push them. *)
Definition commit_local_changes (repo_name : str) : M unit :=
  changes <- run_command git_status false true ;;
  if value_truthy changes then
    print (changes_msg repo_name) ;;
    print (match changes with Some c => c | None => py "None" end) ;;
    answer <- input (commit_prompt repo_name) ;;
    if eqb (lower (strip answer)) (py "y") then
      run_command git_add false false ;;
      run_command (git_commit repo_name) false false ;;
      run_command git_push true false ;;
      ret tt
    else ret tt
  else ret tt.

(** Lines 181-183 of [clone_or_update_repos]: resolve the current branch and
    pull it unless the captured text contains "fatal". *)
Definition pull_current_branch : M unit :=
  current_branch <- run_command git_rev_parse false true ;;
  match current_branch with
  | Some branch =>
      if negb (contains (py "fatal") branch) then
        run_command (git_pull branch) true false ;;
        ret tt
      else ret tt
  | None => ret tt
  end.

(** The body of the loop of [clone_or_update_repos] (lines 163-187), for one
    item of [repos]. *)
Definition sync_repo (record : list str) : M unit :=
  '(repo_name, repo_url) <- unpack2 record ;;
  let repo_path := os_path_join w (CLONE_DIR w) repo_name in
  cloned <- is_local_clone repo_path ;;
  if cloned then
    print (updating_msg repo_name) ;;
    os_chdir repo_path ;;
    commit_local_changes repo_name ;;
    pull_current_branch
  else
    print (cloning_msg repo_name) ;;
    run_command (git_clone repo_url repo_path) false false ;;
    ret tt.

Definition using_dir_msg : str :=
  [0x1F4C1%N] ++ py " Using clone directory: " ++ CLONE_DIR w.

Definition all_synced_msg : str := [0x1F389%N] ++ py " All repositories are synced!".

Definition clone_or_update_repos (repos : list (list str)) : M unit :=
  os_makedirs (CLONE_DIR w) ;;
  os_chdir (CLONE_DIR w) ;;
  print using_dir_msg ;;
  run_command git_config_ff false false ;;
  for_each repos sync_repo ;;
  print all_synced_msg.

(** *** Main execution *)

Definition setting_up_msg : str :=
  [0x1F527%N] ++ py " Setting up Git & Syncing GitHub Repositories...".

Definition logged_in_msg (username : str) : str :=
  [0x1F464%N] ++ py " Logged in as: " ++ username.

Definition exiting_msg : str := [0x274C%N] ++ py " No repositories found. Exiting.".

Definition main : M unit :=
  print setting_up_msg ;;
  ensure_dependencies ;;
  authenticate_github ;;
  check_ssh_access ;;
  username <- get_github_user ;;
  print (logged_in_msg username) ;;
  repos <- fetch_repos username ;;
  match repos with
  | _ :: _ => clone_or_update_repos repos
  | [] => print exiting_msg
  end.

End Script.

(** ** What the statements below speak of *)

(** The test of the sync engine for an existing local clone, as a value:
    the path exists, is a directory and contains [.git]. *)
Definition local_clone (w : World) (h : History) (repo_path : str) : bool :=
  os_path_exists w h repo_path && os_path_isdir w h repo_path
  && os_path_exists w h (os_path_join w repo_path (py ".git")).

(** The event is an operator prompt. *)
Definition is_prompt (e : Event) : Prop := exists prompt, e = EInput prompt.

(** The event is the shell command [cmd], with whatever flags. *)
Definition issues (e : Event) (cmd : str) : Prop :=
  exists check capture, e = EShell cmd check capture.

(** The event is one of the three commands that stage, commit and push the
    local changes of [repo_name]. *)
Definition stages (repo_name : str) (e : Event) : Prop :=
  issues e git_add \/ issues e (git_commit repo_name) \/ issues e git_push.

(** The commands of an event sequence, in order. *)
Fixpoint shell_commands (t : list Event) : list str :=
  match t with
  | [] => []
  | EShell cmd _ _ :: t' => cmd :: shell_commands t'
  | _ :: t' => shell_commands t'
  end.

(** Every event a computation adds satisfies [P], whatever the history. *)
Definition always {A} (P : Event -> Prop) (m : M A) : Prop :=
  forall h, Forall P (snd (m h)).

(** The commands the script runs with [check=True]: the push and the pulls. *)
Definition is_checked (cmd : str) : bool :=
  eqb cmd git_push || startswith cmd (py "git pull origin ").

(** The flag of a shell event is the one the script gives to its command. *)
Definition flag_ok (e : Event) : Prop :=
  match e with
  | EShell cmd check _ => check = is_checked cmd
  | _ => True
  end.

(** Along the events [t] added from history [h] on: whenever a checked
    command exits with a non-zero status, [exited] holds and the only thing
    that follows is the diagnostic of [run_command]. *)
Fixpoint aborts_at_failure (w : World) (h : History) (t : list Event) (exited : Prop) : Prop :=
  match t with
  | [] => True
  | e :: t' =>
      (forall cmd capture,
          e = EShell cmd true capture ->
          returncode (shell w h cmd capture) <> 0%Z ->
          exited
          /\ t' = [EPrint (command_failed w cmd (returncode (shell w h cmd capture)))])
      /\ aborts_at_failure w (h ++ [e]) t' exited
  end.

(** A computation that stops with exit status 1 at the first checked
    command that fails. *)
Definition safe {A} (w : World) (m : M A) : Prop :=
  forall h, aborts_at_failure w h (snd (m h)) (fst (m h) = Exit 1).

(** The values [detect_os] can return. *)
Definition categories : list str :=
  [py "linux-apt"; py "linux-dnf"; py "linux-yum"; py "linux-unknown";
   py "macos"; py "windows"; py "unknown"].

(** The categories [install_package] has an installer for. *)
Definition supported : list str :=
  [py "linux-apt"; py "linux-dnf"; py "linux-yum"; py "macos"; py "windows"].

(** A name or URL as the listing prints it: not empty, no whitespace. *)
Definition word (s : str) : Prop :=
  s <> [] /\ Forall (fun c => isspace c = false) s.

(** One line of the listing, "name url", the same with its line feed, and
    the record it stands for. *)
Definition name_url (p : str * str) : str := fst p ++ [sp] ++ snd p.

Definition listing_line (p : str * str) : str := name_url p ++ [nl].

Definition listing_record (p : str * str) : list str := [fst p; snd p].

(** Lines 197-204 of [main]: everything before the repositories are listed. *)
Definition startup (w : World) : M str :=
  print setting_up_msg ;;
  ensure_dependencies w ;;
  authenticate_github w ;;
  check_ssh_access w ;;
  username <- get_github_user w ;;
  print (logged_in_msg username) ;;
  ret username.

(** ** Sample machines *)

Definition completed (code : Z) (out err : str) : Completed :=
  {| returncode := code; stdout := out; stderr := err |}.

(** A machine whose answers do not change during the run. The sample
    machines are POSIX systems: their [os.path.join] is that of [posixpath]. *)
Record Scenario := {
  platform : str;          (* sys.platform *)
  present : list str;      (* the paths that exist, all of them directories *)
  ssh_text : str;          (* what the SSH probe writes to standard error *)
  login : str;             (* output of [gh api user] *)
  listing : str;           (* output of [gh repo list] *)
  status_text : str;       (* output of [git status --porcelain] *)
  answer : str;            (* what the operator types at a prompt *)
  branch_text : str;       (* output of [git rev-parse --abbrev-ref HEAD] *)
  failing : list str       (* the command lines that exit with status 1 *)
}.

Definition scenario_shell (s : Scenario) (cmd : str) : Completed :=
  completed
    (if existsb (eqb cmd) (failing s) then 1 else 0)
    (if eqb cmd git_status then status_text s
     else if eqb cmd git_rev_parse then branch_text s
     else if eqb cmd (py "gh api user --jq .login") then login s
     else if startswith cmd (py "gh repo list ") then listing s
     else [])
    [].

Definition scenario_spawn (s : Scenario) (argv : list str) : Completed :=
  match argv with
  | prog :: _ => if eqb prog (py "ssh") then completed 1 [] (ssh_text s)
                 else completed 0 [] []
  | [] => completed 0 [] []
  end.

Definition machine (s : Scenario) : World := {|
  sys_platform := platform s;
  CLONE_DIR := py "/home/u/git";
  os_path_join := posixpath_join;
  os_path_exists := fun _ p => existsb (eqb p) (present s);
  os_path_isdir := fun _ p => existsb (eqb p) (present s);
  shell := fun _ cmd _ => scenario_shell s cmd;
  spawn := fun _ argv => Some (scenario_spawn s argv);
  stdin_line := fun _ _ => answer s;
  CalledProcessError_str := fun cmd _ =>
    py "Command '" ++ cmd ++ py "' returned non-zero exit status 1."
|}.

Definition github_greeting : str :=
  py "Hi u! You've successfully authenticated, but GitHub does not provide shell access." ++ [nl].

(** The scenario of the specification: [dotfiles] is cloned and has
    uncommitted changes, [new-repo] is not cloned, the operator declines. *)
Definition two_repos : Scenario := {|
  platform := py "linux";
  present := [py "/usr/bin/apt"; py "/home/u/git/dotfiles"; py "/home/u/git/dotfiles/.git"];
  ssh_text := github_greeting;
  login := py "u" ++ [nl];
  listing := py "dotfiles git@github.com:u/dotfiles.git" ++ [nl]
             ++ py "new-repo git@github.com:u/new-repo.git" ++ [nl];
  status_text := py " M README.md" ++ [nl];
  answer := py "n";
  branch_text := py "main" ++ [nl];
  failing := []
|}.

(** A Windows machine, with the Python of Cygwin (whose [os.path] is
    [posixpath]), on which every command succeeds. *)
Definition windows_fresh : Scenario := {|
  platform := py "cygwin";
  present := [];
  ssh_text := github_greeting;
  login := py "u" ++ [nl];
  listing := [];
  status_text := [];
  answer := py "n";
  branch_text := py "main" ++ [nl];
  failing := []
|}.

(** The same machine without [winget]: its command line fails. *)
Definition windows_no_winget : Scenario := {|
  platform := py "cygwin";
  present := [];
  ssh_text := github_greeting;
  login := py "u" ++ [nl];
  listing := [];
  status_text := [];
  answer := py "n";
  branch_text := py "main" ++ [nl];
  failing := [py "winget install --id Git.Git --silent"]
|}.

(** A machine whose account has no repositories. *)
Definition no_repos : Scenario := {|
  platform := py "linux";
  present := [py "/usr/bin/apt"];
  ssh_text := github_greeting;
  login := py "u" ++ [nl];
  listing := [];
  status_text := [];
  answer := py "n";
  branch_text := py "main" ++ [nl];
  failing := []
|}.

Definition dotfiles : str := py "dotfiles".
Definition dotfiles_url : str := py "git@github.com:u/dotfiles.git".
Definition new_repo : str := py "new-repo".
Definition new_repo_url : str := py "git@github.com:u/new-repo.git".

(** As [two_repos], with [dotfiles] clean. *)
Definition clean_tree : Scenario := {|
  platform := py "linux";
  present := [py "/usr/bin/apt"; py "/home/u/git/dotfiles"; py "/home/u/git/dotfiles/.git"];
  ssh_text := github_greeting;
  login := py "u" ++ [nl];
  listing := listing_line (dotfiles, dotfiles_url) ++ listing_line (new_repo, new_repo_url);
  status_text := [];
  answer := py "n";
  branch_text := py "main" ++ [nl];
  failing := []
|}.

(** As [clean_tree], on a branch named [fatal-fix]. *)
Definition fatal_branch : Scenario := {|
  platform := py "linux";
  present := [py "/usr/bin/apt"; py "/home/u/git/dotfiles"; py "/home/u/git/dotfiles/.git"];
  ssh_text := github_greeting;
  login := py "u" ++ [nl];
  listing := listing_line (dotfiles, dotfiles_url) ++ listing_line (new_repo, new_repo_url);
  status_text := [];
  answer := py "n";
  branch_text := py "fatal-fix" ++ [nl];
  failing := []
|}.

(** As [two_repos], where the pull of [main] and the clone of [new-repo]
    both fail. *)
Definition pull_and_clone_fail : Scenario := {|
  platform := py "linux";
  present := [py "/usr/bin/apt"; py "/home/u/git/dotfiles"; py "/home/u/git/dotfiles/.git"];
  ssh_text := github_greeting;
  login := py "u" ++ [nl];
  listing := listing_line (dotfiles, dotfiles_url) ++ listing_line (new_repo, new_repo_url);
  status_text := py " M README.md" ++ [nl];
  answer := py "n";
  branch_text := py "main" ++ [nl];
  failing := [git_pull (py "main");
              git_clone new_repo_url (py "/home/u/git/new-repo")]
|}.

(** A machine whose SSH key GitHub does not know. *)
Definition no_ssh_key : Scenario := {|
  platform := py "linux";
  present := [py "/usr/bin/apt"];
  ssh_text := py "git@github.com: Permission denied (publickey)." ++ [nl];
  login := py "u" ++ [nl];
  listing := [];
  status_text := [];
  answer := py "n";
  branch_text := py "main" ++ [nl];
  failing := []
|}.

(** ** Further vocabulary *)

(** A computation whose only [sys.exit] is [sys.exit(1)] and out of which
    no [CalledProcessError] propagates. *)
Definition ends_as_script {A} (m : M A) : Prop :=
  forall h,
    match fst (m h) with
    | Ok _ => True
    | Exit code => code = 1%Z
    | Raise e => forall cmd code, e <> CalledProcessError cmd code
    end.


(** Every push among the events [t] added from history [h] on comes right
    after the prompt, the add and the commit of one repository, and the
    operator's answer to that prompt was "y" once stripped and lower-cased. *)
Definition consented (w : World) (h : History) (t : list Event) : Prop :=
  forall t1 t2 check capture,
    t = t1 ++ EShell git_push check capture :: t2 ->
    exists t0 name,
      t1 = t0 ++ [EInput (commit_prompt name); EShell git_add false false;
                  EShell (git_commit name) false false]
      /\ lower (strip (stdin_line w (h ++ t0) (commit_prompt name))) = py "y".

Definition asks_before_push {A} (w : World) (m : M A) : Prop :=
  forall h, consented w h (snd (m h)).

(** Lines 197-200 of [main]: everything before the SSH probe. *)
Definition before_ssh (w : World) : M unit :=
  print setting_up_msg ;;
  ensure_dependencies w ;;
  authenticate_github w.

(** The notices of the dependency and login checks. *)
Definition installed_msg (package : str) : str :=
  [0x2705%N] ++ py " " ++ package ++ py " is already installed.".

Definition installing_msg (package : str) : str :=
  [0x1F527%N] ++ py " Installing " ++ package ++ py "...".

Definition unsupported_msg (os_type package : str) : str :=
  [0x26A0%N; 0xFE0F%N] ++ py " Unsupported OS: " ++ os_type
  ++ py ". Install " ++ package ++ py " manually.".

Definition login_required_msg : str :=
  [0x1F511%N] ++ py " GitHub CLI authentication required.".

Definition logged_in_already_msg : str :=
  [0x2705%N] ++ py " GitHub authentication is already set up.".

Definition gh_auth_login : str := py "gh auth login".

Definition which (package : str) : list str := [py "which"; package].

Definition gh_auth_status : list str := [py "gh"; py "auth"; py "status"].

Definition gh_api_user : str := py "gh api user --jq .login".

Definition username_prompt : str := py "Enter your GitHub username: ".

(** ** Further sample machines *)

(** The machine of a scenario on which the tools in [missing] are not
    found, by [which] or when started, and on which [gh auth status] fails
    when [logged_out]. *)
Definition machine_without (s : Scenario) (missing : list str) (logged_out : bool) : World := {|
  sys_platform := platform s;
  CLONE_DIR := py "/home/u/git";
  os_path_join := posixpath_join;
  os_path_exists := fun _ p => existsb (eqb p) (present s);
  os_path_isdir := fun _ p => existsb (eqb p) (present s);
  shell := fun _ cmd _ => scenario_shell s cmd;
  spawn := fun _ argv =>
    match argv with
    | [prog; arg] =>
        if eqb prog (py "which") && existsb (eqb arg) missing
        then Some (completed 1 [] [])
        else Some (scenario_spawn s argv)
    | [prog; _; _] =>
        if existsb (eqb prog) missing then None
        else if eqb prog (py "gh") && logged_out then Some (completed 1 [] [])
        else Some (scenario_spawn s argv)
    | _ => Some (scenario_spawn s argv)
    end;
  stdin_line := fun _ _ => answer s;
  CalledProcessError_str := fun cmd _ =>
    py "Command '" ++ cmd ++ py "' returned non-zero exit status 1."
|}.

(** A FreeBSD machine: no installer is known for it. *)
Definition freebsd : Scenario := {|
  platform := py "freebsd14";
  present := [];
  ssh_text := github_greeting;
  login := py "u" ++ [nl];
  listing := [];
  status_text := [];
  answer := py "n";
  branch_text := py "main" ++ [nl];
  failing := []
|}.

(** A Debian machine on which [apt] fails. *)
Definition broken_apt : Scenario := {|
  platform := py "linux";
  present := [py "/usr/bin/apt"];
  ssh_text := github_greeting;
  login := py "u" ++ [nl];
  listing := [];
  status_text := [];
  answer := py "n";
  branch_text := py "main" ++ [nl];
  failing := [py "sudo apt update -y && sudo apt install -y git";
              py "sudo apt update -y && sudo apt install -y gh";
              py "gh auth login"]
|}.

(** A machine on which [gh] does not know the user and the operator types
    a name with blanks around it. *)
Definition anonymous : Scenario := {|
  platform := py "linux";
  present := [py "/usr/bin/apt"];
  ssh_text := github_greeting;
  login := [nl];
  listing := [];
  status_text := [];
  answer := py "  alice " ++ [nl];
  branch_text := py "main" ++ [nl];
  failing := [gh_api_user]
|}.

(** As [two_repos], with an operator who agrees to commit. *)
Definition agrees : Scenario := {|
  platform := py "linux";
  present := [py "/usr/bin/apt"; py "/home/u/git/dotfiles"; py "/home/u/git/dotfiles/.git"];
  ssh_text := github_greeting;
  login := py "u" ++ [nl];
  listing := listing_line (dotfiles, dotfiles_url) ++ listing_line (new_repo, new_repo_url);
  status_text := py " M README.md" ++ [nl];
  answer := py " Y ";
  branch_text := py "main" ++ [nl];
  failing := []
|}.

(** * Properties *)

(** ** Text *)

Section TextFacts.

Lemma eqb_eq (a b : str) : eqb a b = true <-> a = b.
Proof.
  revert b; induction a as [|x a IH]; intros [|y b]; simpl; split;
    try congruence; try reflexivity.
  - intros H. apply andb_true_iff in H as [Hx Hab].
    apply N.eqb_eq in Hx. apply IH in Hab. congruence.
  - intros H. injection H as -> ->.
    apply andb_true_iff. split; [apply N.eqb_refl | now apply IH].
Qed.

Lemma eqb_refl (a : str) : eqb a a = true.
Proof. now apply eqb_eq. Qed.

Lemma eqb_neq (a b : str) : eqb a b = false <-> a <> b.
Proof.
  split.
  - intros H E. apply eqb_eq in E. congruence.
  - intros H. destruct (eqb a b) eqn:E; [|reflexivity].
    apply eqb_eq in E. contradiction.
Qed.

Lemma startswith_spec (s p : str) : startswith s p = true <-> exists q, s = p ++ q.
Proof.
  revert s; induction p as [|x p IH]; intros s; simpl.
  - split; [intros _; now exists s | reflexivity].
  - destruct s as [|y s].
    + split; [discriminate | intros [q Hq]; discriminate].
    + rewrite andb_true_iff, N.eqb_eq, IH. split.
      * intros [-> [q ->]]. now exists q.
      * intros [q Hq]. injection Hq as -> ->. split; [reflexivity | now exists q].
Qed.

Lemma contains_unfold (n s : str) :
  contains n s = startswith s n || match s with [] => false | _ :: s' => contains n s' end.
Proof. destruct s; reflexivity. Qed.

Lemma contains_spec (n s : str) : contains n s = true <-> Substr n s.
Proof.
  unfold Substr. induction s as [|c s IH].
  - simpl. rewrite orb_false_r, startswith_spec. split.
    + intros [q Hq]. now exists [], q.
    + intros [p [q Hq]]. destruct p; simpl in Hq.
      * now exists q.
      * discriminate.
  - rewrite contains_unfold, orb_true_iff, startswith_spec, IH. split.
    + intros [[q Hq] | [p [q Hq]]].
      * now exists [], q.
      * exists (c :: p), q. simpl. now rewrite Hq.
    + intros [p [q Hq]]. destruct p as [|c' p]; simpl in Hq.
      * left. now exists q.
      * right. injection Hq as _ Hq. now exists p, q.
Qed.

Lemma contains_false (n s : str) : contains n s = false <-> ~ Substr n s.
Proof.
  rewrite <- contains_spec. destruct (contains n s); split; congruence.
Qed.

Lemma Substr_rev (n s : str) : Substr n s <-> Substr (rev n) (rev s).
Proof.
  assert (forall a b, Substr a b -> Substr (rev a) (rev b)) as Hone.
  { intros a b [p [q ->]]. exists (rev q), (rev p).
    now rewrite !rev_app_distr, app_assoc. }
  split; [apply Hone|].
  intros H. apply Hone in H. now rewrite !rev_involutive in H.
Qed.

Lemma Substr_lstrip (n s : str) (a : N) (n' : str) :
  n = a :: n' -> isspace a = false ->
  Substr n (lstrip s) <-> Substr n s.
Proof.
  intros -> Ha. induction s as [|c s IH]; simpl; [reflexivity|].
  destruct (isspace c) eqn:Hc; [|reflexivity].
  rewrite IH. split.
  - intros [p [q ->]]. now exists (c :: p), q.
  - intros [p [q Hq]]. destruct p as [|c' p]; simpl in Hq.
    + injection Hq as -> _. congruence.
    + injection Hq as _ ->. now exists p, q.
Qed.

Lemma Substr_rstrip (n s : str) (a : N) (n' : str) :
  rev n = a :: n' -> isspace a = false ->
  Substr n (rstrip s) <-> Substr n s.
Proof.
  intros Hn Ha. unfold rstrip.
  rewrite (Substr_rev n (rev _)), rev_involutive.
  rewrite (Substr_lstrip (rev n) (rev s) a n' Hn Ha).
  symmetry. apply Substr_rev.
Qed.

(** Stripping keeps every occurrence of a text that neither starts nor ends
    with whitespace. *)
Lemma Substr_strip (n s : str) (a b : N) (n1 n2 : str) :
  n = a :: n1 -> rev n = b :: n2 -> isspace a = false -> isspace b = false ->
  Substr n (strip s) <-> Substr n s.
Proof.
  intros Hn Hr Ha Hb. unfold strip.
  rewrite (Substr_rstrip n (lstrip s) b n2 Hr Hb). exact (Substr_lstrip n s a n1 Hn Ha).
Qed.

Lemma contains_strip (n s : str) (a b : N) (n1 n2 : str) :
  n = a :: n1 -> rev n = b :: n2 -> isspace a = false -> isspace b = false ->
  contains n (strip s) = contains n s.
Proof.
  intros Hn Hr Ha Hb.
  pose proof (Substr_strip n s a b n1 n2 Hn Hr Ha Hb) as H.
  rewrite <- !contains_spec in H.
  destruct (contains n (strip s)), (contains n s); try reflexivity; destruct H; auto.
  symmetry; auto.
Qed.

Lemma lstrip_id (c : N) (s : str) : isspace c = false -> lstrip (c :: s) = c :: s.
Proof. intros H. simpl. now rewrite H. Qed.

Lemma rstrip_space (s : str) (c : N) : isspace c = true -> rstrip (s ++ [c]) = rstrip s.
Proof. intros H. unfold rstrip. rewrite rev_app_distr. simpl. now rewrite H. Qed.

Lemma rstrip_id (s : str) (c : N) : isspace c = false -> rstrip (s ++ [c]) = s ++ [c].
Proof.
  intros H. unfold rstrip. rewrite rev_app_distr. simpl. rewrite H.
  change (c :: rev s) with ([c] ++ rev s). now rewrite rev_app_distr, rev_involutive.
Qed.

End TextFacts.

(** ** Running the script *)

Section RunFacts.

Variable w : World.

Lemma bind_unfold {A B} (m : M A) (f : A -> M B) (h : History) :
  bind m f h =
  match m h with
  | (Ok a, t) => let (o, t') := f a (h ++ t) in (o, t ++ t')
  | (Exit c, t) => (Exit c, t)
  | (Raise e, t) => (Raise e, t)
  end.
Proof. reflexivity. Qed.

Lemma bind_ok {A B} (m : M A) (f : A -> M B) (h : History) (a : A) (t : list Event) :
  m h = (Ok a, t) ->
  bind m f h = let (o, t') := f a (h ++ t) in (o, t ++ t').
Proof. intros H. unfold bind. now rewrite H. Qed.

Lemma run_command_unfold (cmd : str) (check capture : bool) (h : History) :
  run_command w cmd check capture h =
  let r := shell w h cmd capture in
  if check && negb (returncode r =? 0)%Z
  then (Exit 1, [EShell cmd check capture; EPrint (command_failed w cmd (returncode r))])
  else (Ok (if capture then Some (strip (stdout r)) else None), [EShell cmd check capture]).
Proof.
  unfold run_command, try_except_CalledProcessError, bind, subprocess_run_shell,
    print, emit, sys_exit, ret.
  destruct capture; simpl;
    destruct (check && negb (returncode (shell w h cmd _) =? 0)%Z); reflexivity.
Qed.

Lemma run_command_unchecked (cmd : str) (capture : bool) (h : History) :
  run_command w cmd false capture h =
  (Ok (if capture then Some (strip (stdout (shell w h cmd capture))) else None),
   [EShell cmd false capture]).
Proof. now rewrite run_command_unfold. Qed.

Lemma bind_assoc {A B C} (m : M A) (f : A -> M B) (g : B -> M C) (h : History) :
  bind (bind m f) g h = bind m (fun a => bind (f a) g) h.
Proof.
  unfold bind. destruct (m h) as [[a | c | e] t]; try reflexivity.
  destruct (f a (h ++ t)) as [[b | c | e] t']; try reflexivity.
  rewrite <- app_assoc. destruct (g b (h ++ t ++ t')) as [o t''].
  now rewrite app_assoc.
Qed.

Lemma bind_run_command_checked {B} (cmd : str) (capture : bool) (f : option str -> M B)
    (h : History) :
  bind (run_command w cmd true capture) f h =
  let r := shell w h cmd capture in
  if (returncode r =? 0)%Z
  then let (o, t') := f (if capture then Some (strip (stdout r)) else None)
                        (h ++ [EShell cmd true capture]) in
       (o, EShell cmd true capture :: t')
  else (Exit 1, [EShell cmd true capture; EPrint (command_failed w cmd (returncode r))]).
Proof.
  unfold bind. rewrite run_command_unfold. cbv zeta.
  destruct (returncode (shell w h cmd capture) =? 0)%Z; reflexivity.
Qed.

Lemma subprocess_call_events (argv : list str) (h : History) :
  snd (subprocess_call w argv h) = [ESpawn argv].
Proof. unfold subprocess_call. destruct (spawn w h argv); reflexivity. Qed.

Lemma subprocess_run_events (argv : list str) (h : History) :
  snd (subprocess_run w argv h) = [ESpawn argv].
Proof. unfold subprocess_run. destruct (spawn w h argv); reflexivity. Qed.

Lemma subprocess_call_found (argv : list str) (h : History) (result : Completed) :
  spawn w h argv = Some result ->
  subprocess_call w argv h = (Ok (returncode result), [ESpawn argv]).
Proof. intros H. unfold subprocess_call. now rewrite H. Qed.


Lemma is_local_clone_unfold (repo_path : str) (h : History) :
  is_local_clone w repo_path h = (Ok (local_clone w h repo_path), []).
Proof.
  unfold is_local_clone, and_then, bind, path_exists, path_isdir, ret, local_clone.
  destruct (os_path_exists w h repo_path); [|reflexivity].
  simpl. rewrite ?app_nil_r.
  destruct (os_path_isdir w h repo_path); [|reflexivity].
  simpl. rewrite ?app_nil_r. reflexivity.
Qed.

End RunFacts.

Ltac norm_history :=
  repeat (rewrite ?app_nil_r, <- ?app_assoc; cbn [app]).

(** One statement of the script that returns: evaluate it and go on. *)
Ltac run_step :=
  cbv beta iota zeta;
  first [ rewrite bind_assoc
        | erewrite bind_ok
            by first [ apply is_local_clone_unfold | apply run_command_unchecked | reflexivity ] ];
  cbv beta iota zeta; norm_history.

Ltac run_steps := repeat run_step.

(** ** The SSH identity probe *)



Section SyncFacts.

Variable w : World.

Lemma commit_local_changes_unfold (name : str) (h : History) :
  commit_local_changes w name h =
  let changes := strip (stdout (shell w h git_status true)) in
  let looked := [EShell git_status false true] in
  let shown := looked ++ [EPrint (changes_msg name); EPrint changes] in
  let asked := shown ++ [EInput (commit_prompt name)] in
  let staged := asked ++ [EShell git_add false false; EShell (git_commit name) false false] in
  let code := returncode (shell w (h ++ staged) git_push false) in
  if truthy changes then
    if eqb (lower (strip (stdin_line w (h ++ shown) (commit_prompt name)))) (py "y") then
      if (code =? 0)%Z then (Ok tt, staged ++ [EShell git_push true false])
      else (Exit 1, staged ++ [EShell git_push true false;
                               EPrint (command_failed w git_push code)])
    else (Ok tt, asked)
  else (Ok tt, looked).
Proof.
  unfold commit_local_changes. run_step.
  change (value_truthy (Some ?s)) with (truthy s).
  destruct (truthy (strip (stdout (shell w h git_status true)))); [|reflexivity].
  run_step. run_step. run_step.
  destruct (eqb (lower (strip (stdin_line w _ (commit_prompt name)))) (py "y"));
    [|reflexivity].
  run_step. run_step.
  match goal with |- context [bind ?m ?f ?hh] => rewrite (bind_run_command_checked w git_push false _ hh) end.
  cbv beta iota zeta. norm_history.
  destruct (returncode (shell w _ git_push false) =? 0)%Z; reflexivity.
Qed.

Lemma pull_current_branch_unfold (h : History) :
  pull_current_branch w h =
  let branch := strip (stdout (shell w h git_rev_parse true)) in
  let resolved := [EShell git_rev_parse false true] in
  let code := returncode (shell w (h ++ resolved) (git_pull branch) false) in
  if contains (py "fatal") branch then (Ok tt, resolved)
  else if (code =? 0)%Z then (Ok tt, resolved ++ [EShell (git_pull branch) true false])
  else (Exit 1, resolved ++ [EShell (git_pull branch) true false;
                             EPrint (command_failed w (git_pull branch) code)]).
Proof.
  unfold pull_current_branch. run_step.
  destruct (contains (py "fatal") (strip (stdout (shell w h git_rev_parse true))));
    [reflexivity|].
  cbv beta iota zeta. cbn [negb].
  rewrite bind_run_command_checked. cbv beta iota zeta. norm_history.
  destruct (returncode (shell w _ (git_pull _) false) =? 0)%Z; reflexivity.
Qed.

Lemma sync_repo_existing (name url : str) (h : History) :
  let path := os_path_join w (CLONE_DIR w) name in
  let entered := [EPrint (updating_msg name); EChdir path] in
  local_clone w h path = true ->
  sync_repo w [name; url] h =
  match commit_local_changes w name (h ++ entered) with
  | (Ok _, t1) =>
      let (o, t2) := pull_current_branch w (h ++ entered ++ t1) in
      (o, entered ++ t1 ++ t2)
  | (Exit c, t1) => (Exit c, entered ++ t1)
  | (Raise e, t1) => (Raise e, entered ++ t1)
  end.
Proof.
  intros path entered H.
  unfold sync_repo. run_step. run_step. fold path. rewrite H.
  run_step. run_step. rewrite bind_unfold. fold entered.
  destruct (commit_local_changes w name (h ++ entered)) as [[[] | c | e] t1];
    try reflexivity.
  rewrite <- app_assoc.
  destruct (pull_current_branch w (h ++ entered ++ t1)) as [o t2]. reflexivity.
Qed.

End SyncFacts.

(** ** The sync engine, one repository *)

(** C3. A repository that is not cloned locally gets exactly one command,
    [git clone <url> <path>], built from the record's URL and the path
    derived from its name; the command is not checked, so the repository is
    done whatever the exit status of the clone, and the loop goes on with the
    remaining repositories. *)
Theorem missing_clone_is_cloned_unchecked (w : World) (h : History) (name url : str)
    (rest : list (list str)) :
  let path := os_path_join w (CLONE_DIR w) name in
  let notice := EPrint ([0x1F680%N] ++ py " Cloning new repository: " ++ name) in
  let clone := py "git clone " ++ url ++ py " " ++ path in
  let cloning := [notice; EShell clone false false] in
  local_clone w h path = false ->
  sync_repo w [name; url] h = (Ok tt, cloning)
  /\ shell_commands (snd (sync_repo w [name; url] h)) = [clone]
  /\ for_each ([name; url] :: rest) (sync_repo w) h
     = (let (o, t) := for_each rest (sync_repo w) (h ++ cloning) in (o, cloning ++ t)).
Proof.
  intros path notice clone cloning H.
  assert (Hone : sync_repo w [name; url] h = (Ok tt, cloning)).
  { unfold sync_repo. run_step. run_step. fold path. rewrite H.
    run_steps. reflexivity. }
  split; [exact Hone|]. split; [now rewrite Hone|].
  simpl for_each. now rewrite (bind_ok _ _ _ _ _ Hone).
Qed.


Section CommandFacts.

(** The command lines of the sync engine are pairwise different. *)
Lemma git_status_not_staging (name : str) :
  git_status <> git_add /\ git_status <> git_commit name /\ git_status <> git_push.
Proof. repeat split; intro H; cbv in H; discriminate H. Qed.

Lemma git_rev_parse_not_staging (name : str) :
  git_rev_parse <> git_add /\ git_rev_parse <> git_commit name /\ git_rev_parse <> git_push.
Proof. repeat split; intro H; cbv in H; discriminate H. Qed.

Lemma git_pull_not_staging (name branch : str) :
  git_pull branch <> git_add /\ git_pull branch <> git_commit name
  /\ git_pull branch <> git_push.
Proof. repeat split; intro H; cbv in H; discriminate H. Qed.

Lemma git_status_not_rev_parse : git_status <> git_rev_parse.
Proof. intro H; cbv in H; discriminate H. Qed.

Lemma git_status_not_pull (branch : str) : git_status <> git_pull branch.
Proof. intro H; cbv in H; discriminate H. Qed.

Lemma git_rev_parse_not_pull (branch : str) : git_rev_parse <> git_pull branch.
Proof. intro H; cbv in H; discriminate H. Qed.

Lemma staging_not_pull (name branch : str) :
  git_add <> git_pull branch /\ git_commit name <> git_pull branch
  /\ git_push <> git_pull branch.
Proof. repeat split; intro H; cbv in H; discriminate H. Qed.

Lemma not_stages_shell (name cmd : str) (check capture : bool) :
  cmd <> git_add -> cmd <> git_commit name -> cmd <> git_push ->
  ~ stages name (EShell cmd check capture).
Proof.
  intros H1 H2 H3 [[c [k H]] | [[c [k H]] | [c [k H]]]]; injection H as H _ _; congruence.
Qed.

Lemma not_stages_other (name : str) (e : Event) :
  (forall cmd check capture, e <> EShell cmd check capture) -> ~ stages name e.
Proof.
  intros H [[c [k E]] | [[c [k E]] | [c [k E]]]]; exact (H _ _ _ E).
Qed.

End CommandFacts.

Section PullFacts.

Variable w : World.

(** The pull step neither prompts nor stages anything. *)
Lemma pull_current_branch_quiet (name : str) (h : History) :
  Forall (fun e => ~ is_prompt e /\ ~ stages name e) (snd (pull_current_branch w h)).
Proof.
  rewrite pull_current_branch_unfold. cbv zeta.
  set (branch := strip (stdout (shell w h git_rev_parse true))).
  assert (Hrev : ~ is_prompt (EShell git_rev_parse false true)
                 /\ ~ stages name (EShell git_rev_parse false true)).
  { split; [intros [p Hp]; discriminate|].
    destruct (git_rev_parse_not_staging name) as [? [? ?]].
    now apply not_stages_shell. }
  assert (Hpull : ~ is_prompt (EShell (git_pull branch) true false)
                  /\ ~ stages name (EShell (git_pull branch) true false)).
  { split; [intros [p Hp]; discriminate|].
    destruct (git_pull_not_staging name branch) as [? [? ?]].
    now apply not_stages_shell. }
  assert (Hprint : forall text, ~ is_prompt (EPrint text) /\ ~ stages name (EPrint text)).
  { intros text. split; [intros [p Hp]; discriminate|].
    apply not_stages_other. intros; discriminate. }
  destruct (contains _ branch); [|destruct (_ =? 0)%Z]; simpl; repeat constructor;
    first [apply Hrev | apply Hpull | apply Hprint].
Qed.

End PullFacts.

(** C4. An existing clone with a clean working tree (the status query
    yields nothing) only gets the pull step: after the status query the
    engine goes straight to the branch resolution and pull, shows no prompt
    and issues no add, commit or push. *)
Theorem clean_tree_only_pulls (w : World) (h : History) (name url : str) :
  let path := os_path_join w (CLONE_DIR w) name in
  let entered := [EPrint (updating_msg name); EChdir path] in
  let looked := entered ++ [EShell git_status false true] in
  local_clone w h path = true ->
  strip (stdout (shell w (h ++ entered) git_status true)) = [] ->
  sync_repo w [name; url] h
  = (let (o, t) := pull_current_branch w (h ++ looked) in (o, looked ++ t))
  /\ Forall (fun e => ~ is_prompt e /\ ~ stages name e) (snd (sync_repo w [name; url] h)).
Proof.
  intros path entered looked Hclone Hclean.
  assert (Hrun : sync_repo w [name; url] h
                 = (let (o, t) := pull_current_branch w (h ++ looked) in (o, looked ++ t))).
  { rewrite sync_repo_existing by exact Hclone. fold path. fold entered.
    rewrite commit_local_changes_unfold. cbv zeta. rewrite Hclean. cbn [truthy].
    reflexivity. }
  split; [exact Hrun|].
  rewrite Hrun.
  pose proof (pull_current_branch_quiet w name (h ++ looked)) as Hq.
  destruct (pull_current_branch w (h ++ looked)) as [o t]. cbn [snd] in *.
  apply Forall_app. split; [|exact Hq].
  destruct (git_status_not_staging name) as [? [? ?]].
  unfold looked, entered. cbn [app].
  repeat constructor;
    try (intros [p Hp]; discriminate);
    try (apply not_stages_other; intros; discriminate).
  now apply not_stages_shell.
Qed.


Section BranchFacts.

Variable w : World.

(** An event that occurs once in a sequence splits it in one way only. *)
Lemma split_at_unique {A} (e : A) (l1 l2 t1 t2 : list A) :
  ~ In e l1 -> ~ In e l2 ->
  l1 ++ e :: l2 = t1 ++ e :: t2 -> t1 = l1 /\ t2 = l2.
Proof.
  revert t1. induction l1 as [|a l1 IH]; intros t1 H1 H2 E.
  - destruct t1 as [|x t1]; simpl in E.
    + injection E as E. now subst.
    + injection E as <- E. exfalso. apply H2. rewrite E. apply in_elt.
  - destruct t1 as [|x t1]; simpl in E.
    + injection E as <- _. exfalso. apply H1. now left.
    + injection E as <- E.
      destruct (IH t1) as [-> ->]; auto.
      intros Hin. apply H1. now right.
Qed.

(** Before the branch is resolved nothing resolves it and nothing pulls. *)
Lemma commit_local_changes_no_branch (name : str) (h : History) :
  Forall (fun e => e <> EShell git_rev_parse false true
                   /\ forall branch, ~ issues e (git_pull branch))
    (snd (commit_local_changes w name h)).
Proof.
  rewrite commit_local_changes_unfold. cbv zeta.
  assert (Hs : forall cmd check capture,
             cmd <> git_rev_parse -> (forall b, cmd <> git_pull b) ->
             EShell cmd check capture <> EShell git_rev_parse false true
             /\ forall branch, ~ issues (EShell cmd check capture) (git_pull branch)).
  { intros cmd check capture H1 H2. split; [congruence|].
    intros b [c [k E]]. injection E as E _ _. exact (H2 b E). }
  assert (Ho : forall e, (forall cmd check capture, e <> EShell cmd check capture) ->
             e <> EShell git_rev_parse false true
             /\ forall branch, ~ issues e (git_pull branch)).
  { intros e H. split; [apply H|]. intros b [c [k E]]. exact (H _ _ _ E). }
  assert (Hstatus := Hs git_status false true git_status_not_rev_parse git_status_not_pull).
  assert (Hadd : git_add <> git_rev_parse) by (intro H; cbv in H; discriminate H).
  assert (Hcommit : git_commit name <> git_rev_parse) by (intro H; cbv in H; discriminate H).
  assert (Hpush : git_push <> git_rev_parse) by (intro H; cbv in H; discriminate H).
  destruct (truthy _); [destruct (eqb _ _); [destruct (_ =? 0)%Z|]|];
    cbn [snd app]; repeat first [apply Forall_nil | apply Forall_cons];
    try exact Hstatus;
    try (apply Ho; intros; discriminate);
    try (apply Hs; [assumption | intros b; apply (staging_not_pull name b)]).
Qed.

End BranchFacts.

(** C10. In an existing clone the pull is skipped whenever the text
    captured from the branch resolution contains "fatal" anywhere: the
    resolution is then the last thing done for the repository, which ends
    normally, and no pull command is issued. The branch name "fatal-fix" is
    such a text. *)
Theorem fatal_in_branch_text_skips_pull (w : World) (h : History) (name url : str)
    (t1 t2 : list Event) :
  let path := os_path_join w (CLONE_DIR w) name in
  let run := sync_repo w [name; url] h in
  local_clone w h path = true ->
  snd run = t1 ++ EShell git_rev_parse false true :: t2 ->
  contains (py "fatal") (strip (stdout (shell w (h ++ t1) git_rev_parse true))) = true ->
  (fst run = Ok tt /\ t2 = []
   /\ Forall (fun e => forall branch, ~ issues e (git_pull branch)) (snd run))
  /\ contains (py "fatal") (py "fatal-fix") = true.
Proof.
  intros path run Hclone Hsplit Hfatal.
  split; [|reflexivity].
  set (entered := [EPrint (updating_msg name); EChdir path]).
  assert (Hrun : run =
    match commit_local_changes w name (h ++ entered) with
    | (Ok _, c1) =>
        let (o, c2) := pull_current_branch w (h ++ entered ++ c1) in
        (o, entered ++ c1 ++ c2)
    | (Exit c, c1) => (Exit c, entered ++ c1)
    | (Raise e, c1) => (Raise e, entered ++ c1)
    end) by (apply sync_repo_existing; exact Hclone).
  pose proof (commit_local_changes_no_branch w name (h ++ entered)) as Hpre.
  assert (Hentered : Forall (fun e => e <> EShell git_rev_parse false true
                                      /\ forall branch, ~ issues e (git_pull branch)) entered).
  { repeat first [apply Forall_nil | apply Forall_cons];
      (split; [discriminate | intros b [c [k E]]; discriminate]). }
  destruct (commit_local_changes w name (h ++ entered)) as [[[] | c | e] c1];
    cbn [snd] in Hpre.
  - (* the branch is resolved right after the commit step *)
    rewrite pull_current_branch_unfold in Hrun. cbv zeta in Hrun.
    assert (Hnotin : ~ In (EShell git_rev_parse false true) (entered ++ c1)).
    { intros Hin. apply in_app_or in Hin as [Hin | Hin].
      - rewrite Forall_forall in Hentered. now apply (Hentered _ Hin).
      - rewrite Forall_forall in Hpre. now apply (Hpre _ Hin). }
    set (branch := strip (stdout (shell w (h ++ entered ++ c1) git_rev_parse true))) in *.
    destruct (contains (py "fatal") branch) eqn:Hb.
    + rewrite Hrun in Hsplit |- *. cbn [fst snd] in *.
      replace (entered ++ c1 ++ [EShell git_rev_parse false true])
        with ((entered ++ c1) ++ EShell git_rev_parse false true :: []) in *
        by now rewrite <- app_assoc.
      apply split_at_unique in Hsplit as [_ ->]; [|exact Hnotin|intros []].
      split; [reflexivity|]. split; [reflexivity|].
      apply Forall_app. split.
      * apply Forall_app. split; eapply Forall_impl; try eassumption;
          intros ev [_ Hev]; exact Hev.
      * repeat first [apply Forall_nil | apply Forall_cons].
        intros b [c [k E]]. apply (git_rev_parse_not_pull b). congruence.
    + exfalso.
      assert (Hsplit' : exists l2, snd run = (entered ++ c1) ++ EShell git_rev_parse false true :: l2
                                   /\ ~ In (EShell git_rev_parse false true) l2).
      { rewrite Hrun.
        destruct (_ =? 0)%Z; cbn [snd app]; eexists; (split; [now rewrite <- app_assoc|]);
          simpl; intuition discriminate. }
      destruct Hsplit' as [l2 [E Hl2]]. rewrite E in Hsplit.
      apply split_at_unique in Hsplit as [-> _]; [|exact Hnotin|exact Hl2].
      unfold branch in Hb. congruence.
  - (* the push failed: the branch is never resolved *)
    exfalso. rewrite Hrun in Hsplit. cbn [snd] in Hsplit.
    assert (Hin : In (EShell git_rev_parse false true) (entered ++ c1))
      by (rewrite Hsplit; apply in_elt).
    apply in_app_or in Hin as [Hin | Hin].
    + rewrite Forall_forall in Hentered. now apply (Hentered _ Hin).
    + rewrite Forall_forall in Hpre. now apply (Hpre _ Hin).
  - exfalso. rewrite Hrun in Hsplit. cbn [snd] in Hsplit.
    assert (Hin : In (EShell git_rev_parse false true) (entered ++ c1))
      by (rewrite Hsplit; apply in_elt).
    apply in_app_or in Hin as [Hin | Hin].
    + rewrite Forall_forall in Hentered. now apply (Hentered _ Hin).
    + rewrite Forall_forall in Hpre. now apply (Hpre _ Hin).
Qed.

(** ** Invariants of event sequences *)

Section Invariants.

Variable w : World.

Lemma always_ret {A} (P : Event -> Prop) (a : A) : always P (ret a).
Proof. intros h. constructor. Qed.

Lemma always_silent {A} (P : Event -> Prop) (m : M A) :
  (forall h, snd (m h) = []) -> always P m.
Proof. intros H h. rewrite H. constructor. Qed.

Lemma always_one {A} (P : Event -> Prop) (m : M A) (e : Event) :
  (forall h, snd (m h) = [e]) -> P e -> always P m.
Proof. intros H He h. rewrite H. repeat constructor. exact He. Qed.

Lemma always_bind {A B} (P : Event -> Prop) (m : M A) (f : A -> M B) :
  always P m -> (forall a, always P (f a)) -> always P (bind m f).
Proof.
  intros Hm Hf h. unfold bind. specialize (Hm h).
  destruct (m h) as [[a | c | e] t]; cbn [snd] in *; try exact Hm.
  specialize (Hf a (h ++ t)). destruct (f a (h ++ t)) as [o t']. cbn [snd] in *.
  apply Forall_app. now split.
Qed.

Lemma always_for_each {A} (P : Event -> Prop) (l : list A) (body : A -> M unit) :
  (forall x, always P (body x)) -> always P (for_each l body).
Proof.
  intros H. induction l as [|x l IH]; simpl.
  - apply always_ret.
  - apply always_bind; [apply H | intros _; exact IH].
Qed.

Lemma always_run_command (P : Event -> Prop) (cmd : str) (check capture : bool) :
  P (EShell cmd check capture) -> (forall text, P (EPrint text)) ->
  always P (run_command w cmd check capture).
Proof.
  intros Hc Hp h. rewrite run_command_unfold. cbv zeta.
  destruct (check && negb _); cbn [snd]; repeat constructor; auto.
Qed.

Lemma aborts_unchecked (h : History) (t : list Event) (X : Prop) :
  Forall (fun e => forall cmd capture, e <> EShell cmd true capture) t ->
  aborts_at_failure w h t X.
Proof.
  intros H. revert h. induction H as [|e t He _ IH]; intros h; simpl.
  - exact I.
  - split; [|apply IH]. intros cmd capture E. now apply He in E.
Qed.

Lemma aborts_weaken (h : History) (t : list Event) (X Y : Prop) :
  (X -> Y) -> aborts_at_failure w h t X -> aborts_at_failure w h t Y.
Proof.
  intros HXY. revert h. induction t as [|e t IH]; intros h H; [exact I|].
  destruct H as [He Ht]. split; [|now apply IH].
  intros cmd capture E Hrc. destruct (He cmd capture E Hrc) as [Hx Hrest]. auto.
Qed.

Lemma aborts_app (h : History) (t t' : list Event) (X Y : Prop) :
  ~ X -> aborts_at_failure w h t X -> aborts_at_failure w (h ++ t) t' Y ->
  aborts_at_failure w h (t ++ t') Y.
Proof.
  intros HX. revert h. induction t as [|e t IH]; intros h Ht Ht'.
  - now rewrite app_nil_r in Ht'.
  - destruct Ht as [He Ht]. simpl. split.
    + intros cmd capture E Hrc. destruct (He cmd capture E Hrc) as [Hx _]. contradiction.
    + apply IH; [exact Ht|]. now rewrite <- app_assoc.
Qed.

Lemma aborts_split (h : History) (t1 t2 : list Event) (cmd : str) (capture : bool)
    (X : Prop) :
  aborts_at_failure w h (t1 ++ EShell cmd true capture :: t2) X ->
  returncode (shell w (h ++ t1) cmd capture) <> 0%Z ->
  X /\ t2 = [EPrint (command_failed w cmd (returncode (shell w (h ++ t1) cmd capture)))].
Proof.
  revert h. induction t1 as [|e t1 IH]; intros h H Hrc.
  - rewrite app_nil_r in *. destruct H as [H _]. now apply H.
  - destruct H as [_ H].
    replace (h ++ e :: t1) with ((h ++ [e]) ++ t1) in * by now rewrite <- app_assoc.
    now apply IH.
Qed.

Lemma safe_unchecked {A} (m : M A) :
  always (fun e => forall cmd capture, e <> EShell cmd true capture) m -> safe w m.
Proof. intros H h. apply aborts_unchecked, H. Qed.

Lemma safe_ret {A} (a : A) : safe w (ret a).
Proof. intros h. exact I. Qed.

Lemma safe_bind {A B} (m : M A) (f : A -> M B) :
  safe w m -> (forall a, safe w (f a)) -> safe w (bind m f).
Proof.
  intros Hm Hf h. unfold bind. specialize (Hm h).
  destruct (m h) as [[a | c | e] t]; cbn [fst snd] in *.
  - specialize (Hf a (h ++ t)). destruct (f a (h ++ t)) as [o t']. cbn [fst snd] in *.
    apply aborts_app with (X := @Ok A a = Exit 1); [discriminate | exact Hm | exact Hf].
  - apply aborts_weaken with (X := @Exit A c = Exit 1); [congruence | exact Hm].
  - apply aborts_weaken with (X := @Raise A e = Exit 1); [discriminate | exact Hm].
Qed.

Lemma safe_for_each {A} (l : list A) (body : A -> M unit) :
  (forall x, safe w (body x)) -> safe w (for_each l body).
Proof.
  intros H. induction l as [|x l IH]; simpl.
  - apply safe_ret.
  - apply safe_bind; [apply H | intros _; exact IH].
Qed.

Lemma safe_run_command (cmd : str) (check capture : bool) :
  safe w (run_command w cmd check capture).
Proof.
  intros h. rewrite run_command_unfold. cbv zeta.
  destruct (check && negb (returncode (shell w h cmd capture) =? 0)%Z) eqn:Hfail;
    cbn [fst snd aborts_at_failure].
  - split; [|split; [intros ? ? E; discriminate E | exact I]].
    intros cmd' capture' E _. injection E as <- _ <-. split; reflexivity.
  - split; [|exact I].
    intros cmd' capture' E Hrc. injection E as <- -> <-. exfalso.
    cbn [andb] in Hfail. apply negb_false_iff, Z.eqb_eq in Hfail. contradiction.
Qed.

End Invariants.

(** A piece of the script taken apart, statement by statement, for a goal
    [always P m] or [safe w m]. *)
Ltac script_steps :=
  repeat lazymatch goal with
  | |- always _ (bind _ _) => apply always_bind; [|intro]
  | |- safe _ (bind _ _) => apply safe_bind; [|intro]
  | |- always _ (ret _) => apply always_ret
  | |- safe _ (ret _) => apply safe_ret
  | |- always _ (for_each _ _) => apply always_for_each; intro
  | |- safe _ (for_each _ _) => apply safe_for_each; intro
  | |- always _ (run_command _ _ _ _) => apply always_run_command
  | |- safe _ (run_command _ _ _ _) => apply safe_run_command
  | |- safe _ _ =>
      lazymatch goal with
      | |- safe _ (match ?x with _ => _ end) => destruct x
      | |- safe _ (raise _) => apply safe_unchecked
      | |- safe _ (sys_exit _) => apply safe_unchecked
      | |- safe _ (path_exists _ _) => apply safe_unchecked
      | |- safe _ (path_isdir _ _) => apply safe_unchecked
      | |- safe _ (print _) => apply safe_unchecked
      | |- safe _ (os_chdir _) => apply safe_unchecked
      | |- safe _ (os_makedirs _) => apply safe_unchecked
      | |- safe _ (input _ _) => apply safe_unchecked
      | |- safe _ (subprocess_call _ _) => apply safe_unchecked
      | |- safe _ (subprocess_run _ _) => apply safe_unchecked
      | |- safe _ (?f _ _ _) => unfold f; cbv zeta
      | |- safe _ (?f _ _) => unfold f; cbv zeta
      | |- safe _ (?f _) => unfold f; cbv zeta
      end
  | |- always _ (raise _) => apply always_silent; reflexivity
  | |- always _ (sys_exit _) => apply always_silent; reflexivity
  | |- always _ (path_exists _ _) => apply always_silent; reflexivity
  | |- always _ (path_isdir _ _) => apply always_silent; reflexivity
  | |- always _ (print _) => eapply always_one; [reflexivity|]
  | |- always _ (os_chdir _) => eapply always_one; [reflexivity|]
  | |- always _ (os_makedirs _) => eapply always_one; [reflexivity|]
  | |- always _ (input _ _) => eapply always_one; [reflexivity|]
  | |- always _ (subprocess_call _ _) => eapply always_one; [apply subprocess_call_events|]
  | |- always _ (subprocess_run _ _) => eapply always_one; [apply subprocess_run_events|]
  | |- always _ (match ?x with _ => _ end) => destruct x
  | |- always _ (?f _ _ _) => unfold f; cbv zeta
  | |- always _ (?f _ _) => unfold f; cbv zeta
  | |- always _ (?f _) => unfold f; cbv zeta
  end.

Section BatchFacts.

Variable w : World.

Lemma main_flags : always flag_ok (main w).
Proof. script_steps; try exact I; try (intros; exact I); reflexivity. Qed.

Lemma clone_or_update_repos_flags (repos : list (list str)) :
  always flag_ok (clone_or_update_repos w repos).
Proof. script_steps; try exact I; try (intros; exact I); reflexivity. Qed.

Lemma main_safe : safe w (main w).
Proof. script_steps; intros; discriminate. Qed.

Lemma clone_or_update_repos_safe (repos : list (list str)) :
  safe w (clone_or_update_repos w repos).
Proof. script_steps; intros; discriminate. Qed.

Lemma is_checked_push_or_pull (cmd : str) :
  cmd = git_push \/ (exists branch, cmd = git_pull branch) -> is_checked cmd = true.
Proof.
  intros [-> | [branch ->]]; [reflexivity|].
  unfold is_checked. apply orb_true_iff. right.
  apply startswith_spec. now exists branch.
Qed.

(** In a computation that keeps the flags and stops at the first failed
    checked command, a push or pull that fails is the last command. *)
Lemma checked_failure_is_last {A} (m : M A) (h : History) (t1 t2 : list Event)
    (cmd : str) (check capture : bool) :
  always flag_ok m -> safe w m ->
  snd (m h) = t1 ++ EShell cmd check capture :: t2 ->
  cmd = git_push \/ (exists branch, cmd = git_pull branch) ->
  returncode (shell w (h ++ t1) cmd capture) <> 0%Z ->
  check = true
  /\ fst (m h) = Exit 1
  /\ t2 = [EPrint (command_failed w cmd (returncode (shell w (h ++ t1) cmd capture)))].
Proof.
  intros Hflags Hsafe Hsplit Hcmd Hrc.
  assert (Hcheck : check = true).
  { specialize (Hflags h). rewrite Hsplit in Hflags.
    apply Forall_elt in Hflags. cbn in Hflags.
    rewrite Hflags. now apply is_checked_push_or_pull. }
  subst check. split; [reflexivity|].
  specialize (Hsafe h). rewrite Hsplit in Hsafe.
  exact (aborts_split w h t1 t2 cmd capture _ Hsafe Hrc).
Qed.

End BatchFacts.

(** ** The sync engine, the whole batch *)

(** C2. Whenever the push or a pull of some repository exits with a
    non-zero status, the run stops there: the only thing that follows is the
    diagnostic of the failed command, the outcome is [sys.exit(1)], and so no
    later repository is touched. This holds for the sync engine on any list
    of repositories and for the whole program. *)
Theorem failed_push_or_pull_ends_run (w : World) (h : History) (t1 t2 : list Event)
    (cmd : str) (check capture : bool) :
  cmd = git_push \/ (exists branch, cmd = git_pull branch) ->
  returncode (shell w (h ++ t1) cmd capture) <> 0%Z ->
  let diagnostic :=
    [EPrint (command_failed w cmd (returncode (shell w (h ++ t1) cmd capture)))] in
  (forall repos,
      snd (clone_or_update_repos w repos h) = t1 ++ EShell cmd check capture :: t2 ->
      check = true /\ fst (clone_or_update_repos w repos h) = Exit 1 /\ t2 = diagnostic)
  /\ (snd (main w h) = t1 ++ EShell cmd check capture :: t2 ->
      check = true /\ fst (main w h) = Exit 1 /\ t2 = diagnostic
      /\ exit_status (fst (main w h)) <> 0%Z).
Proof.
  intros Hcmd Hrc diagnostic. split.
  - intros repos Hsplit.
    exact (checked_failure_is_last w (clone_or_update_repos w repos) h t1 t2 cmd check capture
             (clone_or_update_repos_flags w repos) (clone_or_update_repos_safe w repos)
             Hsplit Hcmd Hrc).
  - intros Hsplit.
    destruct (checked_failure_is_last w (main w) h t1 t2 cmd check capture
                (main_flags w) (main_safe w) Hsplit Hcmd Hrc) as [H1 [H2 H3]].
    repeat split; try assumption. rewrite H2. discriminate.
Qed.

Section ConfigFacts.

Variable w : World.

Lemma bind_ext {A B} (m : M A) (f g : A -> M B) (h : History) :
  (forall a h', f a h' = g a h') -> bind m f h = bind m g h.
Proof.
  intros H. unfold bind. destruct (m h) as [[a | c | e] t]; try reflexivity.
  now rewrite H.
Qed.

Lemma bind_ret_l {A B} (a : A) (f : A -> M B) (h : History) :
  bind (ret a) f h = f a h.
Proof.
  unfold bind, ret. rewrite app_nil_r. destruct (f a h). reflexivity.
Qed.

(** [main] is its start-up followed by the listing and the sync. *)
Lemma main_from_startup (h : History) :
  main w h =
  bind (startup w)
    (fun username =>
       repos <- fetch_repos w username ;;
       match repos with
       | _ :: _ => clone_or_update_repos w repos
       | [] => print exiting_msg
       end) h.
Proof.
  unfold main, startup.
  repeat (rewrite bind_assoc; apply bind_ext; intros).
  now rewrite bind_ret_l.
Qed.

(** Nothing done for a repository is the fast-forward configuration. *)
Lemma sync_repo_never_configures (record : list str) :
  always (fun e => ~ issues e git_config_ff) (sync_repo w record).
Proof.
  assert (Hs : forall cmd check capture,
             startswith cmd (py "git config") = false ->
             ~ issues (EShell cmd check capture) git_config_ff).
  { intros cmd check capture H [c [k E]]. injection E as -> _ _. discriminate H. }
  script_steps;
    try (intros ? [c [k E]]; discriminate E);
    try (intros [c [k E]]; discriminate E);
    apply Hs; reflexivity.
Qed.

Lemma shell_commands_app (t t' : list Event) :
  shell_commands (t ++ t') = shell_commands t ++ shell_commands t'.
Proof.
  induction t as [|e t IH]; [reflexivity|].
  destruct e; simpl; now rewrite ?IH.
Qed.

Lemma never_issued_count (cmd : str) (t : list Event) :
  Forall (fun e => ~ issues e cmd) t ->
  count_occ (list_eq_dec N.eq_dec) (shell_commands t) cmd = 0.
Proof.
  intros H. apply count_occ_not_In. induction H as [|e t He _ IH]; [intros []|].
  destruct e; simpl; try exact IH.
  intros [-> | Hin]; [|now apply IH].
  apply He. now exists check, capture.
Qed.

End ConfigFacts.

(** C8. The sync engine issues [git config --global pull.ff only] exactly
    once, right after entering the clone directory and before anything is
    done for any repository: every clone, status query, push and pull comes
    after it. A run of the program reaches the engine when the start-up
    returns and the listing is not empty; nothing before the engine is a
    [git] command, so the whole run configures the pull strategy exactly
    once, before every other [git] command. *)
Theorem pull_strategy_configured_once_first (w : World) (h : History)
    (repos : list (list str)) :
  let config := py "git config --global pull.ff only" in
  let setup := [EMakedirs (CLONE_DIR w); EChdir (CLONE_DIR w);
                EPrint ([0x1F4C1%N] ++ py " Using clone directory: " ++ CLONE_DIR w);
                EShell config false false] in
  let summary (batch : Outcome unit * list Event) :=
    match fst batch with
    | Ok _ => [EPrint ([0x1F389%N] ++ py " All repositories are synced!")]
    | _ => []
    end in
  let count (t : list Event) :=
    count_occ (list_eq_dec N.eq_dec) (shell_commands t) config in
  (forall h',
      let batch := for_each repos (sync_repo w) (h' ++ setup) in
      snd (clone_or_update_repos w repos h') = setup ++ snd batch ++ summary batch
      /\ Forall (fun e => ~ issues e config) (snd batch)
      /\ count (snd (clone_or_update_repos w repos h')) = 1)
  /\ (forall username t0 t1,
        startup w h = (Ok username, t0) ->
        fetch_repos w username (h ++ t0) = (Ok repos, t1) ->
        repos <> [] ->
        main w h = (fst (clone_or_update_repos w repos (h ++ t0 ++ t1)),
                    t0 ++ t1 ++ snd (clone_or_update_repos w repos (h ++ t0 ++ t1)))
        /\ Forall (fun e => forall cmd, issues e cmd -> startswith cmd (py "git ") = false)
             (t0 ++ t1)
        /\ count (snd (main w h)) = 1).
Proof.
  intros config setup summary count.
  assert (Hengine : forall h',
             let batch := for_each repos (sync_repo w) (h' ++ setup) in
             snd (clone_or_update_repos w repos h') = setup ++ snd batch ++ summary batch
             /\ Forall (fun e => ~ issues e config) (snd batch)
             /\ count (snd (clone_or_update_repos w repos h')) = 1).
  { intros h' batch.
    assert (Hrun : snd (clone_or_update_repos w repos h')
                   = setup ++ snd batch ++ summary batch).
    { unfold clone_or_update_repos. run_step. run_step. run_step. run_step.
      rewrite bind_unfold. unfold batch, summary.
      change (h' ++ [EMakedirs _; _; _; _]) with (h' ++ setup).
      destruct (for_each repos (sync_repo w) (h' ++ setup)) as [[[] | c | e] t];
        cbn [fst snd]; rewrite ?app_nil_r; reflexivity. }
    assert (Hbatch : Forall (fun e => ~ issues e config) (snd batch)).
    { apply (always_for_each _ repos (sync_repo w) (sync_repo_never_configures w)). }
    split; [exact Hrun|]. split; [exact Hbatch|].
    unfold count. rewrite Hrun, !shell_commands_app, !count_occ_app.
    pose proof (never_issued_count config (snd batch) Hbatch) as Hnone.
    unfold str in *. rewrite Hnone.
    unfold summary. destruct (fst batch); reflexivity. }
  split; [exact Hengine|].
  intros username t0 t1 Hstart Hfetch Hrepos.
  set (quiet := fun e : Event =>
                  forall cmd, issues e cmd -> startswith cmd (py "git ") = false).
  assert (Hleaf : forall e, (forall cmd c k, e <> EShell cmd c k) -> quiet e).
  { intros e He cmd [c [k E]]. now apply He in E. }
  assert (Hshell : forall cmd c k,
             startswith cmd (py "git ") = false -> quiet (EShell cmd c k)).
  { intros cmd c k H cmd' [c' [k' E]]. now injection E as <- _ _. }
  assert (Hstartup : always quiet (startup w)).
  { script_steps;
      first [ apply Hshell; reflexivity
            | apply Hleaf; intros; discriminate
            | intros; apply Hleaf; intros; discriminate ]. }
  assert (Hlisting : always quiet (fetch_repos w username)).
  { script_steps;
      first [ apply Hshell; reflexivity
            | apply Hleaf; intros; discriminate
            | intros; apply Hleaf; intros; discriminate ]. }
  assert (Hbefore : Forall quiet (t0 ++ t1)).
  { apply Forall_app. split.
    - specialize (Hstartup h). now rewrite Hstart in Hstartup.
    - specialize (Hlisting (h ++ t0)). now rewrite Hfetch in Hlisting. }
  assert (Hmain : main w h
                  = (fst (clone_or_update_repos w repos (h ++ t0 ++ t1)),
                     t0 ++ t1 ++ snd (clone_or_update_repos w repos (h ++ t0 ++ t1)))).
  { rewrite main_from_startup, (bind_ok _ _ _ _ _ Hstart). cbv beta iota zeta.
    rewrite (bind_ok _ _ _ _ _ Hfetch). cbv beta iota zeta.
    destruct repos as [|first rest]; [contradiction|].
    rewrite <- !app_assoc.
    destruct (clone_or_update_repos w (first :: rest) (h ++ t0 ++ t1)) as [o t].
    reflexivity. }
  split; [exact Hmain|]. split; [exact Hbefore|].
  destruct (Hengine (h ++ t0 ++ t1)) as [_ [_ Hone]].
  rewrite Hmain. cbn [snd]. unfold count in *.
  rewrite app_assoc, shell_commands_app, count_occ_app. unfold str in *. rewrite Hone.
  assert (Hnone : count_occ (list_eq_dec N.eq_dec) (shell_commands (t0 ++ t1)) config = 0).
  { apply never_issued_count. eapply Forall_impl; [|exact Hbefore].
    intros e He Hissue. specialize (He config Hissue). discriminate He. }
  unfold str in *. now rewrite Hnone.
Qed.

(** ** Platform detection and installers *)

Ltac eval_eqb :=
  repeat match goal with
  | |- context [eqb (py ?a) (py ?b)] =>
      let v := eval vm_compute in (eqb (py a) (py b)) in
      change (eqb (py a) (py b)) with v; cbv beta iota
  end.

Lemma detect_os_in_categories (w : World) (h : History) :
  exists category, detect_os w h = (Ok category, []) /\ In category categories.
Proof.
  unfold detect_os, categories.
  destruct (startswith (sys_platform w) (py "linux")).
  - unfold bind, path_exists, ret. cbn [app].
    destruct (os_path_exists w h (py "/usr/bin/apt"));
      [eexists; split; [reflexivity | simpl; auto 8]|].
    rewrite ?app_nil_r.
    destruct (os_path_exists w h (py "/usr/bin/dnf"));
      [eexists; split; [reflexivity | simpl; auto 8]|].
    rewrite ?app_nil_r.
    destruct (os_path_exists w h (py "/usr/bin/yum"));
      eexists; (split; [reflexivity | simpl; auto 8]).
  - destruct (eqb (sys_platform w) (py "darwin"));
      [eexists; split; [reflexivity | simpl; auto 8]|].
    destruct (eqb (sys_platform w) (py "win32") || eqb (sys_platform w) (py "cygwin"));
      eexists; (split; [reflexivity | simpl; auto 8]).
Qed.

(** C6, as stated, fails on the code: the category [windows] has two
    installer command lines, so no single template gives the commands that
    [install_package] issues there. On a Windows machine without [winget],
    installing [git] issues the [winget] line and then the [choco] line. *)
Lemma one_template_per_supported_category_fails :
  ~ (forall category, In category supported ->
       exists template : str -> str,
       forall (w : World) (h : History) (package : str),
         fst (detect_os w h) = Ok category ->
         shell_commands (snd (install_package w package h)) = [template package]).
Proof.
  intros H.
  destruct (H (py "windows")) as [template Ht]; [simpl; auto 8|].
  specialize (Ht (machine windows_no_winget) [] (py "git") eq_refl).
  vm_compute in Ht. discriminate Ht.
Qed.

Lemma install_package_unfold (w : World) (h : History) (package category : str) :
  detect_os w h = (Ok category, []) ->
  install_package w package h =
  let installing := EPrint ([0x1F527%N] ++ py " Installing " ++ package ++ py "...") in
  let (o, t) :=
    (if eqb category (py "linux-apt") then
       run_command w (py "sudo apt update -y && sudo apt install -y " ++ package) false false ;;
       ret tt
     else if eqb category (py "linux-dnf") then
       run_command w (py "sudo dnf install -y " ++ package) false false ;;
       ret tt
     else if eqb category (py "linux-yum") then
       run_command w (py "sudo yum install -y " ++ package) false false ;;
       ret tt
     else if eqb category (py "macos") then
       run_command w (py "brew install " ++ package) false false ;;
       ret tt
     else if eqb category (py "windows") then
       if eqb package (py "git") then
         or_else (run_command w (py "winget install --id Git.Git --silent") false false)
                 (run_command w (py "choco install git -y") false false) ;;
         ret tt
       else if eqb package (py "gh") then
         or_else (run_command w (py "winget install --id GitHub.cli --silent") false false)
                 (run_command w (py "choco install gh -y") false false) ;;
         ret tt
       else ret tt
     else
       print ([0x26A0%N; 0xFE0F%N] ++ py " Unsupported OS: " ++ category
              ++ py ". Install " ++ package ++ py " manually.") ;;
       sys_exit 1) (h ++ [installing]) in
  (o, installing :: t).
Proof.
  intros Hd. unfold install_package.
  rewrite (bind_ok _ _ _ _ _ Hd). cbv beta iota zeta. rewrite app_nil_r.
  rewrite bind_unfold. unfold print at 1, emit at 1. cbv beta iota zeta.
  destruct (_ (h ++ _)) as [o t]. reflexivity.
Qed.

(** C6, amended. [detect_os] always returns one of seven distinct
    categories. [linux-apt], [linux-dnf], [linux-yum] and [macos] each have
    one install command template; [windows] has two fixed command lines for
    each of [git] and [gh], the [winget] one first and after it at most the
    [choco] one; [linux-unknown] and [unknown] have none, and installing
    there exits with status 1. *)
Theorem detect_os_categories_and_installers (w : World) (h : History) (package : str) :
  NoDup categories
  /\ exists category,
       detect_os w h = (Ok category, []) /\ In category categories
       /\ let run := install_package w package h in
          let issued := shell_commands (snd run) in
          (category = py "linux-apt" ->
           issued = [py "sudo apt update -y && sudo apt install -y " ++ package])
          /\ (category = py "linux-dnf" -> issued = [py "sudo dnf install -y " ++ package])
          /\ (category = py "linux-yum" -> issued = [py "sudo yum install -y " ++ package])
          /\ (category = py "macos" -> issued = [py "brew install " ++ package])
          /\ (category = py "windows" -> package = py "git" ->
              exists more,
                issued = py "winget install --id Git.Git --silent" :: more
                /\ (more = [] \/ more = [py "choco install git -y"]))
          /\ (category = py "windows" -> package = py "gh" ->
              exists more,
                issued = py "winget install --id GitHub.cli --silent" :: more
                /\ (more = [] \/ more = [py "choco install gh -y"]))
          /\ (category = py "linux-unknown" \/ category = py "unknown" ->
              issued = [] /\ fst run = Exit 1).
Proof.
  split.
  { unfold categories.
    repeat (constructor;
            [simpl; intros Hin;
             repeat (destruct Hin as [Hin | Hin]; [cbv in Hin; discriminate Hin|]);
             exact Hin|]).
    constructor. }
  destruct (detect_os_in_categories w h) as [category [Hd Hin]].
  exists category. split; [exact Hd|]. split; [exact Hin|].
  cbv zeta. rewrite (install_package_unfold w h package category Hd). cbv zeta.
  unfold categories in Hin. simpl in Hin.
  destruct Hin as [<- | [<- | [<- | [<- | [<- | [<- | [<- | []]]]]]]]; eval_eqb;
    repeat apply conj;
    first [ intros Hc; cbv in Hc; discriminate Hc
          | intros [Hc | Hc]; cbv in Hc; discriminate Hc
          | intros _; run_steps; reflexivity
          | intros _ ->; eval_eqb; unfold or_else; run_steps; cbn [value_truthy];
            run_steps; eexists; split; [reflexivity | now right]
          | intros _; run_steps; split; reflexivity ].
Qed.

(** C7 fails on the code. On Windows [install_package] runs the [choco]
    command line after the [winget] one even when [winget] exits with
    status 0: [run_command] returns [None] when it does not capture, so the
    right operand of [or] is always evaluated. *)
Theorem windows_install_runs_choco_after_winget_success (w : World) (h : History) :
  let installing := EPrint ([0x1F527%N] ++ py " Installing " ++ py "git" ++ py "...") in
  fst (detect_os w h) = Ok (py "windows") ->
  returncode (shell w (h ++ [installing]) (py "winget install --id Git.Git --silent") false)
  = 0%Z ->
  install_package w (py "git") h
  = (Ok tt, [installing;
             EShell (py "winget install --id Git.Git --silent") false false;
             EShell (py "choco install git -y") false false]).
Proof.
  intros installing Hd _.
  destruct (detect_os_in_categories w h) as [category [Hd' _]].
  rewrite Hd' in Hd. cbn [fst] in Hd. injection Hd as ->.
  rewrite (install_package_unfold w h (py "git") (py "windows") Hd'). cbv zeta.
  eval_eqb. unfold or_else. run_steps. cbn [value_truthy]. run_steps. reflexivity.
Qed.

(** ** The repository listing *)

Section ListingFacts.

Lemma word_first (s : str) :
  word s -> exists c r, s = c :: r /\ isspace c = false.
Proof.
  intros [Hne Hall]. destruct s as [|c r]; [contradiction|].
  exists c, r. split; [reflexivity|]. now inversion Hall.
Qed.

Lemma word_last (s : str) :
  word s -> exists r d, s = r ++ [d] /\ isspace d = false.
Proof.
  intros [Hne Hall]. destruct (exists_last Hne) as [r [d ->]].
  exists r, d. split; [reflexivity|].
  apply Forall_app in Hall as [_ Hd]. now inversion Hd.
Qed.

Lemma word_no_line_feed (s : str) : word s -> ~ In nl s.
Proof.
  intros [_ Hall] Hin. rewrite Forall_forall in Hall.
  apply Hall in Hin. discriminate Hin.
Qed.

(** A text that neither starts nor ends with whitespace is its own strip,
    also when a line feed follows it. *)
Lemma strip_id (s r1 r2 : str) (c d : N) :
  s = c :: r1 -> s = r2 ++ [d] -> isspace c = false -> isspace d = false ->
  strip s = s /\ strip (s ++ [nl]) = s.
Proof.
  intros Hc Hd Hcs Hds. unfold strip. split.
  - rewrite Hc, (lstrip_id c r1 Hcs), <- Hc, Hd. now apply rstrip_id.
  - rewrite Hc. cbn [app]. rewrite (lstrip_id c (r1 ++ [nl]) Hcs).
    change (c :: r1 ++ [nl]) with ((c :: r1) ++ [nl]).
    rewrite rstrip_space by reflexivity.
    rewrite <- Hc, Hd. now apply rstrip_id.
Qed.

Lemma split_word (n rest : str) :
  word n ->
  rest = [] \/ (exists c r, rest = c :: r /\ isspace c = true) ->
  split (n ++ rest) = n :: split rest.
Proof.
  intros [Hne Hall] Hrest. induction n as [|a n IH]; [contradiction|].
  inversion Hall as [|? ? Ha Hn]; subst.
  destruct n as [|b n].
  - cbn [app]. destruct Hrest as [-> | [c [r [-> Hc]]]].
    + simpl. now rewrite Ha.
    + cbn [split]. rewrite Ha, Hc. reflexivity.
  - assert (Hb : isspace b = false) by now inversion Hn.
    specialize (IH ltac:(discriminate) Hn).
    change ((a :: b :: n) ++ rest) with (a :: (b :: n) ++ rest).
    cbn [split]. rewrite Ha. cbn [app]. rewrite Hb.
    change (b :: n ++ rest) with ((b :: n) ++ rest). now rewrite IH.
Qed.

Lemma split_name_url (n u : str) :
  word n -> word u -> split (n ++ [sp] ++ u) = [n; u].
Proof.
  intros Hn Hu.
  rewrite (split_word n ([sp] ++ u) Hn) by (right; now exists sp, u).
  cbn [app split]. change (isspace sp) with true. cbv iota.
  rewrite <- (app_nil_r u) at 1. rewrite (split_word u [] Hu) by now left.
  reflexivity.
Qed.

Lemma split_char_single (c : N) (l : str) : ~ In c l -> split_char c l = [l].
Proof.
  induction l as [|x l IH]; intros Hin; [reflexivity|].
  cbn [split_char]. destruct (N.eqb_spec x c) as [-> | Hx].
  - exfalso. apply Hin. now left.
  - rewrite IH; [reflexivity|]. intros H. apply Hin. now right.
Qed.

Lemma split_char_app (c : N) (l s : str) :
  ~ In c l -> split_char c (l ++ c :: s) = l :: split_char c s.
Proof.
  induction l as [|x l IH]; intros Hin.
  - cbn [app split_char]. now rewrite N.eqb_refl.
  - cbn [app split_char]. destruct (N.eqb_spec x c) as [-> | Hx].
    + exfalso. apply Hin. now left.
    + rewrite IH; [reflexivity|]. intros H. apply Hin. now right.
Qed.

Lemma split_char_join (c : N) (lines : list str) :
  lines <> [] -> Forall (fun l => ~ In c l) lines ->
  split_char c (join [c] lines) = lines.
Proof.
  intros Hne Hall. induction Hall as [|l lines Hl Hall IH]; [contradiction|].
  destruct lines as [|l' lines].
  - cbn [join]. now apply split_char_single.
  - change (join [c] (l :: l' :: lines)) with (l ++ c :: join [c] (l' :: lines)).
    rewrite split_char_app by exact Hl. now rewrite IH.
Qed.

Lemma concat_lines_join (lines : list str) :
  lines <> [] ->
  List.concat (map (fun l => l ++ [nl]) lines) = join [nl] lines ++ [nl].
Proof.
  intros Hne. destruct lines as [|l lines]; [contradiction|]. clear Hne.
  revert l. induction lines as [|l' lines IH]; intros l.
  - simpl. now rewrite app_nil_r.
  - change (join [nl] (l :: l' :: lines)) with (l ++ [nl] ++ join [nl] (l' :: lines)).
    specialize (IH l'). cbn [map List.concat] in *. rewrite IH.
    now rewrite <- !app_assoc.
Qed.

Lemma name_url_first (p : str * str) :
  word (fst p) -> exists c r, name_url p = c :: r /\ isspace c = false.
Proof.
  intros H. destruct (word_first _ H) as [c [r [E Hc]]].
  exists c, (r ++ [sp] ++ snd p). unfold name_url. rewrite E. now split.
Qed.

Lemma name_url_last (p : str * str) :
  word (snd p) -> exists r d, name_url p = r ++ [d] /\ isspace d = false.
Proof.
  intros H. destruct (word_last _ H) as [r [d [E Hd]]].
  exists (fst p ++ [sp] ++ r), d. unfold name_url. rewrite E.
  split; [now rewrite <- !app_assoc | exact Hd].
Qed.

Lemma name_url_no_line_feed (p : str * str) :
  word (fst p) -> word (snd p) -> ~ In nl (name_url p).
Proof.
  intros H1 H2 Hin. unfold name_url in Hin.
  apply in_app_or in Hin as [Hin | Hin]; [now apply (word_no_line_feed _ H1)|].
  destruct Hin as [Hin | Hin]; [discriminate Hin|].
  now apply (word_no_line_feed _ H2).
Qed.

Lemma join_first (sep : str) (l : str) (lines : list str) (c : N) (r : str) :
  l = c :: r -> exists r', join sep (l :: lines) = c :: r'.
Proof.
  intros ->. destruct lines; [now exists r|].
  eexists. cbn [join app]. reflexivity.
Qed.

Lemma join_last (sep : str) (lines : list str) (l : str) (r : str) (d : N) :
  l = r ++ [d] -> exists r', join sep (lines ++ [l]) = r' ++ [d].
Proof.
  intros ->. induction lines as [|l' lines [r' IH]].
  - now exists r.
  - cbn [app]. unfold str in *.
    destruct (lines ++ [r ++ [d]]) as [|x xs] eqn:E.
    + destruct lines; discriminate E.
    + exists (l' ++ sep ++ r').
      change (join sep (l' :: x :: xs)) with (l' ++ sep ++ join sep (x :: xs)).
      rewrite IH. now rewrite <- !app_assoc.
Qed.

(** The stripped listing of well-formed lines is the lines joined by line
    feeds. *)
Lemma strip_listing (pairs : list (str * str)) :
  pairs <> [] ->
  Forall (fun p => word (fst p) /\ word (snd p)) pairs ->
  strip (List.concat (map listing_line pairs)) = join [nl] (map name_url pairs).
Proof.
  intros Hne Hall.
  assert (Hlines : List.concat (map listing_line pairs)
                   = join [nl] (map name_url pairs) ++ [nl]).
  { rewrite <- concat_lines_join by (destruct pairs; [contradiction | discriminate]).
    now rewrite map_map. }
  rewrite Hlines.
  assert (Hfirst : exists c r1,
             join [nl] (map name_url pairs) = c :: r1 /\ isspace c = false).
  { destruct pairs as [|p pairs']; [contradiction|].
    inversion Hall as [|? ? [Hp _] _]; subst.
    destruct (name_url_first p Hp) as [c [r [Ec Hc]]].
    destruct (join_first [nl] (name_url p) (map name_url pairs') c r Ec) as [r1 E1].
    exists c, r1. split; [exact E1 | exact Hc]. }
  assert (Hlast : exists r2 d,
             join [nl] (map name_url pairs) = r2 ++ [d] /\ isspace d = false).
  { destruct (exists_last Hne) as [front [q Eq]].
    assert (Hq : word (snd q)).
    { rewrite Eq in Hall. apply Forall_app in Hall as [_ Hall].
      inversion Hall as [|? ? [_ Hq] _]. exact Hq. }
    destruct (name_url_last q Hq) as [r' [d [Ed Hd]]].
    destruct (join_last [nl] (map name_url front) (name_url q) r' d Ed) as [r2 E2].
    exists r2, d. split; [|exact Hd]. rewrite Eq, map_app. exact E2. }
  destruct Hfirst as [c [r1 [E1 Hc]]]. destruct Hlast as [r2 [d [E2 Hd]]].
  exact (proj2 (strip_id _ r1 r2 c d E1 E2 Hc Hd)).
Qed.

End ListingFacts.

Section FetchFacts.

Variable w : World.

Lemma listing_truthy (pairs : list (str * str)) :
  pairs <> [] ->
  Forall (fun p => word (fst p) /\ word (snd p)) pairs ->
  truthy (join [nl] (map name_url pairs)) = true.
Proof.
  intros Hne Hall. destruct pairs as [|p pairs]; [contradiction|].
  inversion Hall as [|? ? [Hp _] _]; subst.
  destruct (name_url_first p Hp) as [c [r [Ec _]]].
  destruct (join_first [nl] (name_url p) (map name_url pairs) c r Ec) as [r1 E1].
  cbn [map]. now rewrite E1.
Qed.

Lemma parse_line (p : str * str) :
  word (fst p) -> word (snd p) -> split (strip (name_url p)) = listing_record p.
Proof.
  intros H1 H2.
  destruct (name_url_first p H1) as [c [r1 [E1 Hc]]].
  destruct (name_url_last p H2) as [r2 [d [E2 Hd]]].
  rewrite (proj1 (strip_id _ r1 r2 c d E1 E2 Hc Hd)).
  now apply split_name_url.
Qed.

Lemma fetch_repos_unfold (username : str) (h : History) :
  fetch_repos w username h =
  let asked := [EPrint (fetching_msg username); EShell (gh_repo_list username) false true] in
  let data := strip (stdout (shell w (h ++ [EPrint (fetching_msg username)])
                               (gh_repo_list username) true)) in
  if truthy data
  then (Ok (map (fun line => split (strip line)) (split_char nl data)), asked)
  else (Ok [], asked ++ [EPrint none_found_msg]).
Proof.
  unfold fetch_repos. run_step. run_step. cbv zeta.
  destruct (truthy _); cbn [negb]; [reflexivity|].
  run_step. reflexivity.
Qed.

End FetchFacts.

(** C5. A listing of N well-formed "name url" lines parses into the N
    records [name, url], in the order of the lines. An empty listing gives
    the empty list without any error, and the program then prints its two
    notices and ends normally, with exit status 0. *)
Theorem listing_parsed_in_order (w : World) (h : History) (username : str)
    (pairs : list (str * str)) :
  let listed := [EPrint (fetching_msg username);
                 EShell (gh_repo_list username) false true] in
  Forall (fun p => word (fst p) /\ word (snd p)) pairs ->
  stdout (shell w (h ++ [EPrint (fetching_msg username)]) (gh_repo_list username) true)
  = List.concat (map listing_line pairs) ->
  fst (fetch_repos w username h) = Ok (map listing_record pairs)
  /\ length (map listing_record pairs) = length pairs
  /\ (pairs = [] ->
      fetch_repos w username h = (Ok [], listed ++ [EPrint none_found_msg])
      /\ forall h0 t0,
           startup w h0 = (Ok username, t0) -> h = h0 ++ t0 ->
           main w h0 = (Ok tt, t0 ++ listed ++ [EPrint none_found_msg; EPrint exiting_msg])
           /\ exit_status (fst (main w h0)) = 0%Z).
Proof.
  intros listed Hall Hout.
  split; [|split; [apply length_map|]].
  - rewrite fetch_repos_unfold. cbv zeta. rewrite Hout.
    destruct pairs as [|p pairs]; [reflexivity|].
    rewrite strip_listing by (discriminate || exact Hall).
    rewrite listing_truthy by (discriminate || exact Hall). cbn [fst].
    rewrite split_char_join.
    + f_equal. rewrite map_map. apply map_ext_in. intros q Hq.
      rewrite Forall_forall in Hall. destruct (Hall q Hq) as [H1 H2].
      now apply parse_line.
    + discriminate.
    + apply Forall_map. eapply Forall_impl; [|exact Hall].
      intros q [H1 H2]. now apply name_url_no_line_feed.
  - intros ->. cbn [map List.concat] in Hout.
    assert (Hfetch : fetch_repos w username h
                     = (Ok [], listed ++ [EPrint none_found_msg])).
    { rewrite fetch_repos_unfold. cbv zeta. rewrite Hout. reflexivity. }
    split; [exact Hfetch|].
    intros h0 t0 Hstart ->.
    assert (Hmain : main w h0
              = (Ok tt, t0 ++ listed ++ [EPrint none_found_msg; EPrint exiting_msg])).
    { rewrite main_from_startup. rewrite (bind_ok _ _ _ _ _ Hstart). cbv beta iota zeta.
      rewrite (bind_ok _ _ _ _ _ Hfetch). cbv beta iota zeta.
      unfold print, emit. now rewrite <- app_assoc. }
    split; [exact Hmain|]. now rewrite Hmain.
Qed.

(** ** The statements at sample machines *)

(** GitHub's greeting passes the probe; a refused key does not, and the
    refusal is printed without its final line feed. *)
Example greeting_passes_refusal_exits :
  check_ssh_access (machine two_repos) []
  = (Ok tt, [EPrint ssh_checking; ESpawn ssh_probe; EPrint ssh_working])
  /\ check_ssh_access (machine no_ssh_key) []
     = (Exit 1, [EPrint ssh_checking; ESpawn ssh_probe;
                 EPrint (ssh_failed (py "git@github.com: Permission denied (publickey)."))]).
Proof. split; vm_compute; reflexivity. Qed.

(** The scenario of the specification: the operator declines to commit the
    changes of [dotfiles], which is then pulled; [new-repo] is cloned; the
    summary is printed at the end. *)
Example declined_commit_then_pull_and_clone :
  let repos := [[dotfiles; dotfiles_url]; [new_repo; new_repo_url]] in
  let run := clone_or_update_repos (machine two_repos) repos [] in
  fst run = Ok tt
  /\ shell_commands (snd run)
     = [git_config_ff; git_status; git_rev_parse; git_pull (py "main");
        git_clone new_repo_url (py "/home/u/git/new-repo")]
  /\ last (snd run) (EPrint []) = EPrint all_synced_msg.
Proof. repeat split; vm_compute; reflexivity. Qed.

(** The same where the pull fails: the run ends there, [new-repo] is not
    cloned and no summary is printed. *)
Example failed_pull_leaves_rest_undone :
  let repos := [[dotfiles; dotfiles_url]; [new_repo; new_repo_url]] in
  let run := clone_or_update_repos (machine pull_and_clone_fail) repos [] in
  fst run = Exit 1
  /\ shell_commands (snd run)
     = [git_config_ff; git_status; git_rev_parse; git_pull (py "main")].
Proof. repeat split; vm_compute; reflexivity. Qed.


(** The scenario of the specification, run from [main]: one configuration
    command, the first [git] command of the run. *)
Lemma pull_strategy_configured_once_first_witness :
  count_occ (list_eq_dec N.eq_dec) (shell_commands (snd (main (machine two_repos) [])))
    (py "git config --global pull.ff only") = 1
  /\ hd [] (filter (fun cmd => startswith cmd (py "git "))
              (shell_commands (snd (main (machine two_repos) []))))
     = py "git config --global pull.ff only".
Proof.
  split; [|reflexivity].
  destruct (pull_strategy_configured_once_first (machine two_repos) []
              [[dotfiles; dotfiles_url]; [new_repo; new_repo_url]])
    as [_ Hmain].
  destruct (Hmain (py "u") (snd (startup (machine two_repos) []))
              (snd (fetch_repos (machine two_repos) (py "u")
                      (snd (startup (machine two_repos) [])))))
    as [_ [_ Hone]]; [reflexivity | reflexivity | discriminate |].
  exact Hone.
Defined.

(** A clone that exits with status 1 still counts as done. *)
Lemma missing_clone_is_cloned_unchecked_witness :
  returncode (shell (machine pull_and_clone_fail) []
                (git_clone new_repo_url (py "/home/u/git/new-repo")) false) = 1%Z
  /\ sync_repo (machine pull_and_clone_fail) [new_repo; new_repo_url] []
     = (Ok tt, [EPrint (cloning_msg new_repo);
                EShell (py "git clone git@github.com:u/new-repo.git /home/u/git/new-repo")
                  false false]).
Proof.
  split; [reflexivity|].
  apply (missing_clone_is_cloned_unchecked (machine pull_and_clone_fail) []
           new_repo new_repo_url []).
  reflexivity.
Defined.

(** A clean [dotfiles] on branch [main]: status, branch, pull. *)
Lemma clean_tree_only_pulls_witness :
  snd (sync_repo (machine clean_tree) [dotfiles; dotfiles_url] [])
  = [EPrint (updating_msg dotfiles); EChdir (py "/home/u/git/dotfiles");
     EShell git_status false true; EShell git_rev_parse false true;
     EShell (git_pull (py "main")) true false].
Proof.
  destruct (clean_tree_only_pulls (machine clean_tree) [] dotfiles dotfiles_url)
    as [Hrun _]; [reflexivity | reflexivity |].
  rewrite Hrun. reflexivity.
Defined.


(** On branch [fatal-fix] the resolution succeeds and nothing is pulled. *)
Lemma fatal_in_branch_text_skips_pull_witness :
  returncode (shell (machine fatal_branch) [] git_rev_parse true) = 0%Z
  /\ fst (sync_repo (machine fatal_branch) [dotfiles; dotfiles_url] []) = Ok tt
  /\ Forall (fun e => forall branch, ~ issues e (git_pull branch))
       (snd (sync_repo (machine fatal_branch) [dotfiles; dotfiles_url] [])).
Proof.
  split; [reflexivity|].
  destruct (fatal_in_branch_text_skips_pull (machine fatal_branch) [] dotfiles dotfiles_url
              [EPrint (updating_msg dotfiles); EChdir (py "/home/u/git/dotfiles");
               EShell git_status false true] [])
    as [[Hok [_ Hnone]] _]; [reflexivity | reflexivity | reflexivity |].
  split; [exact Hok | exact Hnone].
Defined.

(** The pull of [dotfiles] fails: the program exits with status 1 right
    after the diagnostic. *)
Lemma failed_push_or_pull_ends_run_witness :
  fst (main (machine pull_and_clone_fail) []) = Exit 1
  /\ skipn 26 (snd (main (machine pull_and_clone_fail) []))
     = [EPrint (command_failed (machine pull_and_clone_fail) (git_pull (py "main")) 1)].
Proof.
  destruct (failed_push_or_pull_ends_run (machine pull_and_clone_fail) []
              (firstn 25 (snd (main (machine pull_and_clone_fail) [])))
              (skipn 26 (snd (main (machine pull_and_clone_fail) [])))
              (git_pull (py "main")) true false)
    as [_ Hmain].
  - right. exists (py "main"). reflexivity.
  - vm_compute. discriminate.
  - destruct Hmain as [_ [Hexit [Hrest _]]]; [vm_compute; reflexivity|].
    split; [exact Hexit | exact Hrest].
Defined.

(** Two lines give two records in order; no line gives exit status 0. *)
Lemma listing_parsed_in_order_witness :
  fst (fetch_repos (machine two_repos) (py "u") [])
  = Ok [[dotfiles; dotfiles_url]; [new_repo; new_repo_url]]
  /\ exit_status (fst (main (machine no_repos) [])) = 0%Z.
Proof.
  split.
  - apply (listing_parsed_in_order (machine two_repos) [] (py "u")
             [(dotfiles, dotfiles_url); (new_repo, new_repo_url)]).
    + repeat constructor; try discriminate.
    + reflexivity.
  - destruct (listing_parsed_in_order (machine no_repos)
                (snd (startup (machine no_repos) [])) (py "u") [])
      as [_ [_ Hempty]]; [constructor | reflexivity |].
    destruct (Hempty eq_refl) as [_ Hmain].
    apply (Hmain [] (snd (startup (machine no_repos) []))); reflexivity.
Defined.

(** On a Windows machine where [winget] succeeds, [choco] is run as well. *)
Lemma windows_install_runs_choco_after_winget_success_witness :
  shell_commands (snd (install_package (machine windows_fresh) (py "git") []))
  = [py "winget install --id Git.Git --silent"; py "choco install git -y"].
Proof.
  rewrite (windows_install_runs_choco_after_winget_success (machine windows_fresh) []);
    reflexivity.
Defined.

(** * Further properties of the script *)

(** ** How the script can end *)

Section EndingFacts.

Variable w : World.

Lemma ends_bind {A B} (m : M A) (f : A -> M B) :
  ends_as_script m -> (forall a, ends_as_script (f a)) -> ends_as_script (bind m f).
Proof.
  intros Hm Hf h. unfold bind. specialize (Hm h).
  destruct (m h) as [[a | c | e] t]; cbn [fst] in *; try exact Hm.
  specialize (Hf a (h ++ t)). destruct (f a (h ++ t)) as [o t']. exact Hf.
Qed.

Lemma ends_for_each {A} (l : list A) (body : A -> M unit) :
  (forall x, ends_as_script (body x)) -> ends_as_script (for_each l body).
Proof.
  intros H. induction l as [|x l IH]; simpl.
  - intros h. exact I.
  - apply ends_bind; [apply H | intros _; exact IH].
Qed.

Lemma ends_run_command (cmd : str) (check capture : bool) :
  ends_as_script (run_command w cmd check capture).
Proof.
  intros h. rewrite run_command_unfold. cbv zeta.
  destruct (check && negb _); cbn [fst]; [reflexivity | exact I].
Qed.

End EndingFacts.

Ltac ends_leaf :=
  intros ?;
  unfold subprocess_call, subprocess_run;
  try match goal with
      | |- context [spawn ?w ?h ?argv] => destruct (spawn w h argv)
      end;
  cbn; first [exact I | reflexivity | intros; discriminate].

(** A piece of the script taken apart for a goal [P m], with the lemmas of
    [P] for sequencing, loops and [run_command], a tactic for the primitive
    calls, and a tactic tried first on every piece. *)
Ltac walk_script_with first_try on_bind on_for on_run on_leaf :=
  repeat first
    [ first_try
    | lazymatch goal with
      | |- ?P (bind _ _) => on_bind; [|intro]
      | |- ?P (for_each _ _) => on_for; intro
      | |- ?P (run_command _ _ _ _) => on_run
      | |- ?P (ret _) => on_leaf
      | |- ?P (raise _) => on_leaf
      | |- ?P (sys_exit _) => on_leaf
      | |- ?P (path_exists _ _) => on_leaf
      | |- ?P (path_isdir _ _) => on_leaf
      | |- ?P (print _) => on_leaf
      | |- ?P (os_chdir _) => on_leaf
      | |- ?P (os_makedirs _) => on_leaf
      | |- ?P (input _ _) => on_leaf
      | |- ?P (subprocess_call _ _) => on_leaf
      | |- ?P (subprocess_run _ _) => on_leaf
      | |- ?P (match ?x with _ => _ end) => destruct x
      | |- ?P (?f _ _ _) => unfold f; cbv zeta
      | |- ?P (?f _ _) => unfold f; cbv zeta
      | |- ?P (?f _) => unfold f; cbv zeta
      end ].

Ltac walk_script on_bind on_for on_run on_leaf :=
  walk_script_with ltac:(fail) on_bind on_for on_run on_leaf.

(** X1. Whenever [main] ends through [sys.exit] the status is 1, and a
    [CalledProcessError] never propagates out of it: [run_command] turns
    every one into its diagnostic and [sys.exit(1)]. *)
Theorem main_exits_with_one_and_catches_failures (w : World) (h : History) :
  (forall code, fst (main w h) = Exit code -> code = 1%Z)
  /\ (forall cmd code, fst (main w h) <> Raise (CalledProcessError cmd code)).
Proof.
  assert (Hends : ends_as_script (main w)).
  { walk_script ltac:(apply ends_bind) ltac:(apply ends_for_each)
      ltac:(apply ends_run_command) ltac:(ends_leaf). }
  specialize (Hends h).
  destruct (fst (main w h)) as [[] | c | e]; split; intros; try discriminate.
  - congruence.
  - intros E. injection E as ->. now apply (Hends cmd code).
Qed.

(** ** Dependencies and login *)

Section DependencyFacts.

Variable w : World.

Lemma install_package_returns (package : str) (h : History) :
  (exists category, fst (detect_os w h) = Ok category /\ In category supported) ->
  fst (install_package w package h) = Ok tt.
Proof.
  intros [category [Hc Hin]].
  destruct (detect_os_in_categories w h) as [c [Hd _]].
  rewrite Hd in Hc. cbn [fst] in Hc. injection Hc as ->.
  rewrite (install_package_unfold w h package category Hd). cbv zeta.
  unfold supported in Hin. simpl in Hin.
  destruct Hin as [<- | [<- | [<- | [<- | [<- | []]]]]]; eval_eqb.
  1-4: run_steps; reflexivity.
  destruct (eqb package (py "git")); [|destruct (eqb package (py "gh"))];
    unfold or_else; run_steps; cbn [value_truthy]; run_steps; reflexivity.
Qed.

End DependencyFacts.

(** X2. When [which] finds both [git] and [gh], the dependency check
    installs nothing on any platform, one without a known installer
    included: it returns after the two "already installed" notices and runs
    no command. *)
Theorem ensure_dependencies_present_is_noop (w : World) (h : History)
    (git_found gh_found : Completed) :
  let found_git := [ESpawn (which (py "git")); EPrint (installed_msg (py "git"))] in
  let found_gh := [ESpawn (which (py "gh")); EPrint (installed_msg (py "gh"))] in
  spawn w h (which (py "git")) = Some git_found ->
  returncode git_found = 0%Z ->
  spawn w (h ++ found_git) (which (py "gh")) = Some gh_found ->
  returncode gh_found = 0%Z ->
  ensure_dependencies w h = (Ok tt, found_git ++ found_gh)
  /\ shell_commands (snd (ensure_dependencies w h)) = [].
Proof.
  intros found_git found_gh Hgit Hgit0 Hgh Hgh0.
  assert (Hrun : ensure_dependencies w h = (Ok tt, found_git ++ found_gh)).
  { unfold ensure_dependencies. cbn [for_each].
    rewrite bind_assoc.
    rewrite (bind_ok _ _ _ _ _ (subprocess_call_found w _ _ _ Hgit)).
    cbv beta iota zeta. rewrite Hgit0. cbn [Z.eqb negb].
    run_step. rewrite bind_assoc.
    rewrite (bind_ok _ _ _ _ _ (subprocess_call_found w _ _ _ Hgh)).
    cbv beta iota zeta. rewrite Hgh0. cbn [Z.eqb negb]. norm_history.
    run_step. reflexivity. }
  split; [exact Hrun | now rewrite Hrun].
Qed.

(** X3. A missing [git] on a platform without a known installer
    ([linux-unknown] or [unknown]) ends the program at once with exit status
    1: after the "Installing" notice the script prints that the platform is
    unsupported and exits; [gh] is never looked for and no command is run. *)
Theorem missing_git_on_unsupported_platform_exits (w : World) (h : History)
    (category : str) (not_found : Completed) :
  let started := h ++ [EPrint setting_up_msg] in
  let looked := ESpawn (which (py "git")) in
  spawn w started (which (py "git")) = Some not_found ->
  returncode not_found <> 0%Z ->
  fst (detect_os w (started ++ [looked])) = Ok category ->
  category = py "linux-unknown" \/ category = py "unknown" ->
  main w h = (Exit 1, [EPrint setting_up_msg; looked; EPrint (installing_msg (py "git"));
                       EPrint (unsupported_msg category (py "git"))])
  /\ exit_status (fst (main w h)) = 1%Z.
Proof.
  intros started looked Hwhich Hmissing Hcat Hunsupported.
  assert (Hd : detect_os w (started ++ [looked]) = (Ok category, [])).
  { destruct (detect_os_in_categories w (started ++ [looked])) as [c [Hd _]].
    rewrite Hd in Hcat. cbn [fst] in Hcat. injection Hcat as ->. exact Hd. }
  assert (Hdeps : ensure_dependencies w started
                  = (Exit 1, [looked; EPrint (installing_msg (py "git"));
                              EPrint (unsupported_msg category (py "git"))])).
  { unfold ensure_dependencies. cbn [for_each]. rewrite bind_assoc.
    rewrite (bind_ok _ _ _ _ _ (subprocess_call_found w _ _ _ Hwhich)).
    cbv beta iota zeta. fold (which (py "git")). fold looked.
    apply Z.eqb_neq in Hmissing. rewrite Hmissing. cbn [negb].
    rewrite bind_unfold, (install_package_unfold w _ (py "git") category Hd). cbv zeta.
    destruct Hunsupported as [-> | ->]; eval_eqb; run_steps; reflexivity. }
  assert (Hmain : main w h
                  = (Exit 1, [EPrint setting_up_msg; looked;
                              EPrint (installing_msg (py "git"));
                              EPrint (unsupported_msg category (py "git"))])).
  { unfold main. run_step. rewrite bind_unfold. fold started. rewrite Hdeps. reflexivity. }
  split; [exact Hmain | now rewrite Hmain].
Qed.

(** X4. On a platform that has an installer the dependency check never
    calls [sys.exit]: the installer commands are not checked, so a tool that
    is missing and cannot be installed does not stop the script there. The
    check returns, unless [which] itself cannot be started, in which case
    its [FileNotFoundError] propagates. *)
Theorem ensure_dependencies_never_exits_on_supported_platform (w : World) (h : History) :
  (forall h', exists category, fst (detect_os w h') = Ok category /\ In category supported) ->
  fst (ensure_dependencies w h) = Ok tt
  \/ (fst (ensure_dependencies w h) = Raise FileNotFoundError
      /\ exists h' package, spawn w h' (which package) = None).
Proof.
  intros Hsupported.
  assert (Hbody : forall package h',
             let body := (rc <- subprocess_call w (which package) ;;
                          if negb (rc =? 0)%Z then install_package w package
                          else print (installed_msg package)) in
             fst (body h') = Ok tt
             \/ (fst (body h') = Raise FileNotFoundError
                 /\ exists h'' p, spawn w h'' (which p) = None)).
  { intros package h' body. unfold body, bind, subprocess_call.
    destruct (spawn w h' (which package)) as [result|] eqn:Hspawn.
    - left. destruct (negb (returncode result =? 0)%Z).
      + pose proof (install_package_returns w package (h' ++ [ESpawn (which package)])
                      (Hsupported _)) as Hinstall.
        destruct (install_package w package _) as [o t]. exact Hinstall.
      + reflexivity.
    - right. split; [reflexivity | now exists h', package]. }
  unfold ensure_dependencies. cbn [for_each].
  pose proof (Hbody (py "git") h) as Hgit. cbv zeta in Hgit.
  rewrite bind_unfold.
  change [py "which"; py "git"] with (which (py "git")).
  destruct (bind (subprocess_call w (which (py "git"))) _ h) as [[[] | c | e] t1];
    cbn [fst] in *.
  - pose proof (Hbody (py "gh") (h ++ t1)) as Hgh. cbv zeta in Hgh.
    rewrite bind_unfold.
    change [py "which"; py "gh"] with (which (py "gh")).
    destruct (bind (subprocess_call w (which (py "gh"))) _ (h ++ t1)) as [[[] | c | e] t2];
      cbn [fst] in *.
    + now left.
    + destruct Hgh as [Hgh | [Hgh _]]; discriminate Hgh.
    + exact Hgh.
  - destruct Hgit as [Hgit | [Hgit _]]; discriminate Hgit.
  - exact Hgit.
Qed.

(** X5. When [gh] can be started the login check returns: the interactive
    login is launched exactly when [gh auth status] exits with a non-zero
    status, it is run unchecked, and nothing verifies afterwards that it
    succeeded. When [gh] cannot be started, as after an installation that
    failed unnoticed, its [FileNotFoundError] propagates. *)
Theorem login_launched_iff_status_fails (w : World) (h : History) :
  let asked := ESpawn gh_auth_status in
  (spawn w h gh_auth_status = None ->
   authenticate_github w h = (Raise FileNotFoundError, [asked]))
  /\ (forall status,
        spawn w h gh_auth_status = Some status ->
        fst (authenticate_github w h) = Ok tt
        /\ (returncode status = 0%Z ->
            snd (authenticate_github w h) = [asked; EPrint logged_in_already_msg])
        /\ (returncode status <> 0%Z ->
            snd (authenticate_github w h)
            = [asked; EPrint login_required_msg; EShell gh_auth_login false false])).
Proof.
  intros asked. split.
  - intros Hspawn. unfold authenticate_github, bind, subprocess_call.
    fold gh_auth_status. now rewrite Hspawn.
  - intros status Hspawn.
    assert (Hrun : authenticate_github w h
                   = if negb (returncode status =? 0)%Z
                     then (Ok tt, [asked; EPrint login_required_msg;
                                   EShell gh_auth_login false false])
                     else (Ok tt, [asked; EPrint logged_in_already_msg])).
    { unfold authenticate_github. fold gh_auth_status.
      rewrite (bind_ok _ _ _ _ _ (subprocess_call_found w _ _ _ Hspawn)).
      cbv beta iota zeta.
      destruct (negb (returncode status =? 0)%Z); run_steps; reflexivity. }
    rewrite Hrun. destruct (Z.eqb_spec (returncode status) 0) as [E | E]; cbn [negb fst snd].
    + split; [reflexivity|]. split; [intros _; reflexivity | intros Hc; contradiction].
    + split; [reflexivity|]. split; [intros Hc; contradiction | intros _; reflexivity].
Qed.

(** ** Stripped text *)

Section StripFacts.

Lemma lstrip_head (s : str) :
  lstrip s = [] \/ exists c r, lstrip s = c :: r /\ isspace c = false.
Proof.
  induction s as [|c s IH]; [now left|].
  simpl. destruct (isspace c) eqn:Hc; [exact IH|].
  right. now exists c, s.
Qed.

Lemma lstrip_fixed (s : str) :
  s = [] \/ (exists c r, s = c :: r /\ isspace c = false) -> lstrip s = s.
Proof.
  intros [-> | [c [r [-> Hc]]]]; [reflexivity | now apply lstrip_id].
Qed.

Lemma lstrip_snoc (s : str) (c : N) :
  isspace c = false -> lstrip (s ++ [c]) = lstrip s ++ [c].
Proof.
  intros Hc. induction s as [|x s IH]; simpl.
  - now rewrite Hc.
  - destruct (isspace x); [exact IH | reflexivity].
Qed.

Lemma rstrip_cons (c : N) (s : str) :
  isspace c = false -> rstrip (c :: s) = c :: rstrip s.
Proof.
  intros Hc. unfold rstrip. cbn [rev].
  rewrite (lstrip_snoc (rev s) c Hc), rev_app_distr. reflexivity.
Qed.

Lemma rstrip_fixed (s : str) : rstrip (rstrip s) = rstrip s.
Proof.
  unfold rstrip. rewrite rev_involutive. f_equal.
  apply lstrip_fixed, lstrip_head.
Qed.

(** Stripping twice is stripping once. *)
Lemma strip_fixed (s : str) : strip (strip s) = strip s.
Proof.
  unfold strip.
  assert (Hl : lstrip (rstrip (lstrip s)) = rstrip (lstrip s)).
  { apply lstrip_fixed.
    destruct (lstrip_head s) as [-> | [c [r [-> Hc]]]]; [now left|].
    right. rewrite (rstrip_cons c r Hc). now exists c, (rstrip r). }
  rewrite Hl. apply rstrip_fixed.
Qed.

Lemma truthy_false (s : str) : truthy s = false <-> s = [].
Proof. destruct s; split; intros H; try reflexivity; discriminate H. Qed.

End StripFacts.

(** ** The user name and the listing *)

(** X6. [get_github_user] always returns. It takes the name [gh] reports,
    stripped; only when that is empty does it prompt, once, and take the
    stripped answer, whatever it is (a blank answer gives the empty name).
    The exit status of [gh] plays no part, and the name returned never has
    whitespace around it. *)
Theorem get_github_user_prompts_only_without_login (w : World) (h : History) :
  let asked := EShell gh_api_user false true in
  let reported := strip (stdout (shell w h gh_api_user true)) in
  let typed := stdin_line w (h ++ [asked]) username_prompt in
  (reported <> [] -> get_github_user w h = (Ok reported, [asked]))
  /\ (reported = [] ->
      get_github_user w h = (Ok (strip typed), [asked; EInput username_prompt]))
  /\ (exists username t,
        get_github_user w h = (Ok username, t) /\ strip username = username).
Proof.
  intros asked reported typed.
  assert (Hrun : get_github_user w h
                 = if truthy reported then (Ok reported, [asked])
                   else (Ok (strip typed), [asked; EInput username_prompt])).
  { unfold get_github_user. run_step. fold gh_api_user. fold reported.
    destruct (truthy reported); [reflexivity|]. unfold input at 1.
    erewrite bind_ok by reflexivity. cbv beta iota zeta. reflexivity. }
  rewrite Hrun. destruct (truthy reported) eqn:Ht.
  - assert (Hne : reported <> []) by (intros E; rewrite E in Ht; discriminate Ht).
    split; [intros _; reflexivity|]. split; [intros E; contradiction|].
    exists reported, [asked]. split; [reflexivity | apply strip_fixed].
  - apply truthy_false in Ht.
    split; [intros Hne; contradiction|]. split; [intros _; reflexivity|].
    eexists _, _. split; [reflexivity | apply strip_fixed].
Qed.

Lemma split_char_length (c : N) (s : str) :
  length (split_char c s) = S (count_occ N.eq_dec s c).
Proof.
  induction s as [|x s IH]; [reflexivity|].
  cbn [split_char count_occ].
  destruct (N.eqb_spec x c) as [-> | Hx].
  - destruct (N.eq_dec c c) as [_ | Hc]; [|contradiction]. cbn [length]. now rewrite IH.
  - destruct (N.eq_dec x c) as [Hc | _]; [contradiction|].
    destruct (split_char c s) as [|l ls]; [discriminate IH | exact IH].
Qed.

(** X7. [fetch_repos] always returns, after exactly one command, and looks
    only at what the command printed: an API call that fails without output
    is the same as an account without repositories. The result is empty
    exactly when the stripped output is; otherwise there is one record for
    each line of it, well-formed or not. *)
Theorem fetch_repos_one_record_per_line (w : World) (h : History) (username : str) :
  let data := strip (stdout (shell w (h ++ [EPrint (fetching_msg username)])
                               (gh_repo_list username) true)) in
  exists records t,
    fetch_repos w username h = (Ok records, t)
    /\ shell_commands t = [gh_repo_list username]
    /\ (records = [] <-> data = [])
    /\ (data <> [] -> length records = S (count_occ N.eq_dec data nl)).
Proof.
  intros data. rewrite fetch_repos_unfold. cbv zeta. fold data.
  destruct (truthy data) eqn:Ht.
  - assert (Hne : data <> []) by (intros E; rewrite E in Ht; discriminate Ht).
    eexists _, _. split; [reflexivity|]. split; [reflexivity|].
    assert (Hlen : length (map (fun line => split (strip line)) (split_char nl data))
                   = S (count_occ N.eq_dec data nl))
      by (rewrite length_map; apply split_char_length).
    split; [|intros _; exact Hlen].
    split; [|intros E; contradiction].
    intros E. rewrite E in Hlen. discriminate Hlen.
  - apply truthy_false in Ht.
    eexists _, _. split; [reflexivity|]. split; [reflexivity|].
    split; [split; intros _; [exact Ht | reflexivity] | intros Hne; contradiction].
Qed.

(** ** Records that do not unpack *)

Section RecordFacts.

Variable w : World.

Lemma for_each_app {A} (l1 l2 : list A) (body : A -> M unit) (h : History) :
  for_each (l1 ++ l2) body h = bind (for_each l1 body) (fun _ => for_each l2 body) h.
Proof.
  revert h. induction l1 as [|x l1 IH]; intros h.
  - cbn [app for_each]. now rewrite bind_ret_l.
  - cbn [app for_each]. rewrite bind_assoc. apply bind_ext. intros _ h'. apply IH.
Qed.

Lemma sync_repo_malformed (record : list str) (h : History) :
  length record <> 2 -> sync_repo w record h = (Raise ValueError, []).
Proof.
  intros Hlen. destruct record as [|a [|b [|c l]]]; try reflexivity.
  exfalso. apply Hlen. reflexivity.
Qed.





End RecordFacts.

(** X8. A record that does not have exactly two fields (a blank line of the
    listing, a line with a third word) makes the unpacking of the loop fail:
    the repositories before it are processed as usual, then a [ValueError]
    ends the run with exit status 1; the record itself and those after it
    cause no event, and no summary is printed. *)
Theorem malformed_record_stops_batch (w : World) (h : History)
    (before after : list (list str)) (record : list str) (t : list Event) :
  let setup := [EMakedirs (CLONE_DIR w); EChdir (CLONE_DIR w);
                EPrint (using_dir_msg w); EShell git_config_ff false false] in
  for_each before (sync_repo w) (h ++ setup) = (Ok tt, t) ->
  length record <> 2 ->
  clone_or_update_repos w (before ++ record :: after) h = (Raise ValueError, setup ++ t)
  /\ exit_status (fst (clone_or_update_repos w (before ++ record :: after) h)) = 1%Z.
Proof.
  intros setup Hbefore Hlen.
  assert (Hrun : clone_or_update_repos w (before ++ record :: after) h
                 = (Raise ValueError, setup ++ t)).
  { unfold clone_or_update_repos. run_step. run_step. run_step. run_step.
    rewrite bind_unfold.
    change (h ++ [EMakedirs _; _; _; _]) with (h ++ setup).
    rewrite for_each_app, (bind_ok _ _ _ _ _ Hbefore). cbv beta iota zeta.
    cbn [for_each]. rewrite bind_unfold, (sync_repo_malformed w record _ Hlen).
    now rewrite app_nil_r. }
  split; [exact Hrun | now rewrite Hrun].
Qed.


(** ** Which commands are checked, and when the script pushes *)

(** X10. In every run of the program the only commands run with
    [check=True] are the push and the pulls: the exit status of every other
    command (the installers, the login, the listing, the configuration, the
    status query, add, commit, the branch resolution and clone) is ignored. *)
Theorem only_push_and_pull_are_checked (w : World) (h : History) (t1 t2 : list Event)
    (cmd : str) (check capture : bool) :
  snd (main w h) = t1 ++ EShell cmd check capture :: t2 ->
  (check = true <-> cmd = git_push \/ exists branch, cmd = git_pull branch).
Proof.
  intros Hsplit.
  pose proof (main_flags w h) as Hflags. rewrite Hsplit in Hflags.
  apply Forall_elt in Hflags. cbn in Hflags. subst check. split.
  - unfold is_checked. intros H. apply orb_true_iff in H as [H | H].
    + left. now apply eqb_eq.
    + right. apply startswith_spec in H as [branch ->]. now exists branch.
  - apply is_checked_push_or_pull.
Qed.

Section ConsentFacts.

Variable w : World.

Lemma consented_without_push (h : History) (t : list Event) :
  Forall (fun e => ~ issues e git_push) t -> consented w h t.
Proof.
  intros H t1 t2 check capture E. exfalso. rewrite E in H.
  apply Forall_elt in H. apply H. now exists check, capture.
Qed.

Lemma consented_app (h : History) (t t' : list Event) :
  consented w h t -> consented w (h ++ t) t' -> consented w h (t ++ t').
Proof.
  intros Ht Ht' t1 t2 check capture E.
  apply app_eq_app in E as [l [[E1 E2] | [E1 E2]]].
  - destruct l as [|e l].
    + rewrite app_nil_r in E1. subst t1. cbn [app] in E2.
      destruct (Ht' [] t2 check capture) as [t0 [name [E0 _]]]; [now rewrite <- E2|].
      destruct t0 as [|? [|? [|? ?]]]; discriminate E0.
    + cbn [app] in E2. injection E2 as <- E2.
      exact (Ht t1 l check capture E1).
  - destruct (Ht' l t2 check capture E2) as [t0 [name [E0 Hy]]].
    exists (t ++ t0), name. split.
    + now rewrite E1, E0, app_assoc.
    + now rewrite app_assoc.
Qed.

Lemma asks_bind {A B} (m : M A) (f : A -> M B) :
  asks_before_push w m -> (forall a, asks_before_push w (f a)) ->
  asks_before_push w (bind m f).
Proof.
  intros Hm Hf h. unfold bind. specialize (Hm h).
  destruct (m h) as [[a | c | e] t]; cbn [snd] in *; try exact Hm.
  specialize (Hf a (h ++ t)). destruct (f a (h ++ t)) as [o t']. cbn [snd] in *.
  now apply consented_app.
Qed.

Lemma asks_for_each {A} (l : list A) (body : A -> M unit) :
  (forall x, asks_before_push w (body x)) -> asks_before_push w (for_each l body).
Proof.
  intros H. induction l as [|x l IH]; simpl.
  - intros h. apply consented_without_push. constructor.
  - apply asks_bind; [apply H | intros _; exact IH].
Qed.

Lemma asks_run_command (cmd : str) (check capture : bool) :
  eqb cmd git_push = false -> asks_before_push w (run_command w cmd check capture).
Proof.
  intros Hcmd h. apply consented_without_push.
  assert (Hs : ~ issues (EShell cmd check capture) git_push).
  { intros [c [k E]]. injection E as -> _ _. now rewrite eqb_refl in Hcmd. }
  rewrite run_command_unfold. cbv zeta.
  destruct (check && negb _); cbn [snd]; repeat first [apply Forall_nil | apply Forall_cons];
    try exact Hs; intros [c [k E]]; discriminate E.
Qed.

(** The commit step pushes only after the operator has agreed. *)
Lemma commit_local_changes_asks (name : str) :
  asks_before_push w (commit_local_changes w name).
Proof.
  intros h. rewrite commit_local_changes_unfold. cbv zeta.
  set (changes := strip (stdout (shell w h git_status true))).
  set (shown := [EShell git_status false true; EPrint (changes_msg name); EPrint changes]).
  assert (Hquiet : forall t,
             Forall (fun e => forall c k, e <> EShell git_push c k) t ->
             consented w h t).
  { intros t H. apply consented_without_push.
    eapply Forall_impl; [|exact H]. intros e He [c [k E]]. exact (He c k E). }
  destruct (truthy changes);
    [|apply Hquiet; repeat first [apply Forall_nil | apply Forall_cons];
      intros c k E; injection E as E _ _; cbv in E; discriminate E].
  destruct (eqb (lower (strip (stdin_line w _ (commit_prompt name)))) (py "y")) eqn:Hy;
    [|apply Hquiet; cbn [app]; repeat first [apply Forall_nil | apply Forall_cons];
      intros c k E; try discriminate E; injection E as E _ _; cbv in E; discriminate E].
  apply eqb_eq in Hy.
  assert (Hsplit : forall rest t1 t2 check capture,
             ~ In (EShell git_push check capture) rest ->
             (shown ++ [EInput (commit_prompt name); EShell git_add false false;
                        EShell (git_commit name) false false])
             ++ EShell git_push true false :: rest
             = t1 ++ EShell git_push check capture :: t2 ->
             exists t0 name0,
               t1 = t0 ++ [EInput (commit_prompt name0); EShell git_add false false;
                           EShell (git_commit name0) false false]
               /\ lower (strip (stdin_line w (h ++ t0) (commit_prompt name0))) = py "y").
  { intros rest t1 t2 check capture Hrest E.
    assert (Hflags : check = true /\ capture = false).
    { destruct check, capture; try (split; reflexivity); exfalso.
      all: assert (Hin : In (EShell git_push _ _)
                            ((shown ++ [EInput (commit_prompt name); EShell git_add false false;
                                        EShell (git_commit name) false false])
                             ++ EShell git_push true false :: rest))
             by (rewrite E; apply in_elt).
      all: apply in_app_or in Hin as [Hin | [Hin | Hin]];
             [ cbn in Hin; repeat (destruct Hin as [Hin | Hin]; [discriminate Hin|]);
               exact Hin
             | discriminate Hin
             | exact (Hrest Hin) ]. }
    destruct Hflags as [-> ->].
    apply split_at_unique in E as [-> _].
    - exists shown, name. split; [reflexivity | exact Hy].
    - cbn. intros Hin.
      repeat (destruct Hin as [Hin | Hin];
              [try discriminate Hin; injection Hin as Hin; cbv in Hin; discriminate Hin|]).
      exact Hin.
    - exact Hrest. }
  destruct (_ =? 0)%Z; cbn [snd]; intros t1 t2 check capture E.
  - apply (Hsplit [] t1 t2 check capture); [intros []|].
    rewrite <- E. cbn [app]. reflexivity.
  - apply (Hsplit [EPrint (command_failed w git_push
                             (returncode (shell w (h ++ (shown
                                ++ [EInput (commit_prompt name)])
                                ++ [EShell git_add false false;
                                    EShell (git_commit name) false false])
                                git_push false)))] t1 t2 check capture).
    + intros [Hin | []]. discriminate Hin.
    + rewrite <- E. cbn [app]. reflexivity.
Qed.

End ConsentFacts.

(** X11. The program never pushes on its own account: in every run, each
    [git push] comes right after the commit prompt, the add and the commit
    of one repository, and the operator's answer to that prompt was "y" once
    stripped and lower-cased. *)
Theorem push_only_after_operator_agrees (w : World) (h : History) (t1 t2 : list Event)
    (check capture : bool) :
  snd (main w h) = t1 ++ EShell git_push check capture :: t2 ->
  exists t0 name,
    t1 = t0 ++ [EInput (commit_prompt name); EShell git_add false false;
                EShell (git_commit name) false false]
    /\ lower (strip (stdin_line w (h ++ t0) (commit_prompt name))) = py "y".
Proof.
  assert (Hasks : asks_before_push w (main w)).
  { walk_script_with
      ltac:(apply commit_local_changes_asks)
      ltac:(apply asks_bind) ltac:(apply asks_for_each)
      ltac:(apply asks_run_command; reflexivity)
      ltac:(intros ?; apply consented_without_push;
            rewrite ?subprocess_call_events, ?subprocess_run_events; cbn;
            repeat first [apply Forall_nil | apply Forall_cons];
            intros [? [? E]]; discriminate E). }
  intros E. exact (Hasks h t1 t2 check capture E).
Qed.

(** ** A failed probe, seen from [main] *)

Section ProbeFacts.

Variable w : World.

Lemma check_ssh_access_unfold (h : History) (result : Completed) :
  spawn w (h ++ [EPrint ssh_checking]) ssh_probe = Some result ->
  check_ssh_access w h =
  let text := stdout result ++ stderr result in
  if contains (py "successfully authenticated") text
     || contains (py "does not provide shell access") text
  then (Ok tt, [EPrint ssh_checking; ESpawn ssh_probe; EPrint ssh_working])
  else (Exit 1, [EPrint ssh_checking; ESpawn ssh_probe; EPrint (ssh_failed (strip text))]).
Proof.
  intros Hspawn.
  unfold check_ssh_access, bind, print, emit, subprocess_run, sys_exit. cbv zeta.
  cbn [fst snd app]. fold ssh_probe. rewrite Hspawn. cbv beta iota zeta.
  rewrite (contains_strip (py "successfully authenticated") _ 115 100
             (py "uccessfully authenticated") (rev (py "successfully authenticate")))
    by reflexivity.
  rewrite (contains_strip (py "does not provide shell access") _ 100 115
             (py "oes not provide shell access") (rev (py "does not provide shell acces")))
    by reflexivity.
  destruct (contains _ _ || contains _ _); reflexivity.
Qed.

Lemma main_from_before_ssh (h : History) :
  main w h =
  bind (before_ssh w)
    (fun _ =>
       check_ssh_access w ;;
       username <- get_github_user w ;;
       print (logged_in_msg username) ;;
       repos <- fetch_repos w username ;;
       match repos with
       | _ :: _ => clone_or_update_repos w repos
       | [] => print exiting_msg
       end) h.
Proof.
  unfold main, before_ssh.
  rewrite bind_assoc. apply bind_ext. intros _ h1.
  rewrite bind_assoc. reflexivity.
Qed.

End ProbeFacts.

(** X12. When the SSH probe shows neither marker the program stops right
    there with exit status 1: after the dependency and login checks come the
    probe and its failure message and nothing else, so the user is not looked
    up, the repositories are not listed and no repository is touched. *)
Theorem failed_probe_stops_before_listing (w : World) (h : History) (t0 : list Event)
    (result : Completed) :
  let checking := EPrint ([0x1F50D%N] ++ py " Checking SSH access to GitHub...") in
  let probe := [py "ssh"; py "-T"; py "git@github.com"] in
  let text := stdout result ++ stderr result in
  let failed := EPrint ([0x26A0%N; 0xFE0F%N] ++ py " SSH authentication failed. Full output:"
                        ++ [nl] ++ strip text) in
  before_ssh w h = (Ok tt, t0) ->
  spawn w (h ++ t0 ++ [checking]) probe = Some result ->
  ~ Substr (py "successfully authenticated") text ->
  ~ Substr (py "does not provide shell access") text ->
  main w h = (Exit 1, t0 ++ [checking; ESpawn probe; failed])
  /\ shell_commands (snd (main w h)) = shell_commands t0.
Proof.
  intros checking probe text failed Hbefore Hspawn H1 H2.
  assert (Hmain : main w h = (Exit 1, t0 ++ [checking; ESpawn probe; failed])).
  { rewrite main_from_before_ssh, (bind_ok _ _ _ _ _ Hbefore). cbv beta iota zeta.
    rewrite bind_unfold, (check_ssh_access_unfold w (h ++ t0) result).
    - cbv zeta. fold text.
      apply contains_false in H1, H2. rewrite H1, H2. reflexivity.
    - rewrite <- app_assoc. exact Hspawn. }
  split; [exact Hmain|].
  rewrite Hmain. cbn [snd]. rewrite shell_commands_app. cbn. now rewrite app_nil_r.
Qed.

(** ** The pull, the other way round *)


(** X14. For a repository that is already cloned the listed URL plays no
    part: the engine does the same whatever URL the record carries, so it
    never notices a clone whose remote is not the listed repository. *)
Theorem existing_clone_ignores_url (w : World) (h : History) (name url url' : str) :
  local_clone w h (os_path_join w (CLONE_DIR w) name) = true ->
  sync_repo w [name; url] h = sync_repo w [name; url'] h.
Proof.
  intros Hclone.
  rewrite (sync_repo_existing w name url h Hclone).
  rewrite (sync_repo_existing w name url' h Hclone). reflexivity.
Qed.

(** ** The further statements at sample machines *)

(** FreeBSD, for which no installer is known, with both tools present:
    nothing is run and the check returns. *)
Lemma ensure_dependencies_present_is_noop_witness :
  fst (detect_os (machine freebsd) []) = Ok (py "unknown")
  /\ fst (ensure_dependencies (machine freebsd) []) = Ok tt
  /\ shell_commands (snd (ensure_dependencies (machine freebsd) [])) = [].
Proof.
  split; [reflexivity|].
  destruct (ensure_dependencies_present_is_noop (machine freebsd) []
              (completed 0 [] []) (completed 0 [] []))
    as [Hrun Hcommands]; [reflexivity | reflexivity | reflexivity | reflexivity |].
  split; [now rewrite Hrun | exact Hcommands].
Defined.

(** FreeBSD without [git]: four events, exit status 1. *)
Lemma missing_git_on_unsupported_platform_exits_witness :
  exit_status (fst (main (machine_without freebsd [py "git"] false) [])) = 1%Z.
Proof.
  apply (missing_git_on_unsupported_platform_exits
           (machine_without freebsd [py "git"] false) [] (py "unknown") (completed 1 [] [])).
  - reflexivity.
  - discriminate.
  - reflexivity.
  - now right.
Defined.

(** Debian without the tools and with a failing [apt]: the check returns. *)
Lemma ensure_dependencies_never_exits_on_supported_platform_witness :
  returncode (shell (machine_without broken_apt [py "git"; py "gh"] false) []
                (py "sudo apt update -y && sudo apt install -y git") false) = 1%Z
  /\ (fst (ensure_dependencies (machine_without broken_apt [py "git"; py "gh"] false) [])
      = Ok tt
      \/ (fst (ensure_dependencies (machine_without broken_apt [py "git"; py "gh"] false) [])
          = Raise FileNotFoundError
          /\ exists h' package,
               spawn (machine_without broken_apt [py "git"; py "gh"] false) h' (which package)
               = None)).
Proof.
  split; [reflexivity|].
  apply (ensure_dependencies_never_exits_on_supported_platform
           (machine_without broken_apt [py "git"; py "gh"] false) []).
  intros h'. exists (py "linux-apt"). split; [reflexivity | simpl; auto].
Defined.

(** [gh] is still missing after the dependency check: the login check ends
    with the [FileNotFoundError] of its first call. *)
Example login_check_without_gh_raises :
  fst (ensure_dependencies (machine_without broken_apt [py "gh"] false) []) = Ok tt
  /\ authenticate_github (machine_without broken_apt [py "gh"] false) []
     = (Raise FileNotFoundError, [ESpawn gh_auth_status]).
Proof. split; vm_compute; reflexivity. Qed.

(** A blank line between two good lines: [dotfiles] is synced, then the
    run ends with a [ValueError]; [new-repo] is not cloned. *)
Lemma malformed_record_stops_batch_witness :
  fst (clone_or_update_repos (machine two_repos)
         ([[dotfiles; dotfiles_url]] ++ [] :: [[new_repo; new_repo_url]]) [])
  = Raise ValueError
  /\ shell_commands
       (snd (clone_or_update_repos (machine two_repos)
               ([[dotfiles; dotfiles_url]] ++ [] :: [[new_repo; new_repo_url]]) []))
     = [git_config_ff; git_status; git_rev_parse; git_pull (py "main")].
Proof.
  destruct (malformed_record_stops_batch (machine two_repos) []
              [[dotfiles; dotfiles_url]] [[new_repo; new_repo_url]] []
              (snd (for_each [[dotfiles; dotfiles_url]] (sync_repo (machine two_repos))
                      [EMakedirs (py "/home/u/git"); EChdir (py "/home/u/git");
                       EPrint (using_dir_msg (machine two_repos));
                       EShell git_config_ff false false])))
    as [Hrun _]; [reflexivity | discriminate |].
  rewrite Hrun. split; reflexivity.
Defined.


(** The configuration command of a run: not checked, being no push or pull. *)
Lemma only_push_and_pull_are_checked_witness :
  ~ (git_config_ff = git_push \/ exists branch, git_config_ff = git_pull branch).
Proof.
  intros H.
  apply (only_push_and_pull_are_checked (machine two_repos) []
           (firstn 17 (snd (main (machine two_repos) [])))
           (skipn 18 (snd (main (machine two_repos) [])))
           git_config_ff false false) in H; [discriminate H | reflexivity].
Defined.

(** The operator types " Y ": the push follows prompt, add and commit. *)
Lemma push_only_after_operator_agrees_witness :
  exists t0 name,
    firstn 26 (snd (main (machine agrees) []))
    = t0 ++ [EInput (commit_prompt name); EShell git_add false false;
             EShell (git_commit name) false false]
    /\ lower (strip (stdin_line (machine agrees) ([] ++ t0) (commit_prompt name))) = py "y".
Proof.
  apply (push_only_after_operator_agrees (machine agrees) []
           (firstn 26 (snd (main (machine agrees) [])))
           (skipn 27 (snd (main (machine agrees) []))) true false).
  reflexivity.
Defined.

(** A refused key: the program exits before [gh api user] is run. *)
Lemma failed_probe_stops_before_listing_witness :
  shell_commands (snd (main (machine no_ssh_key) [])) = []
  /\ fst (main (machine no_ssh_key) []) = Exit 1.
Proof.
  destruct (failed_probe_stops_before_listing (machine no_ssh_key) []
              (snd (before_ssh (machine no_ssh_key) []))
              (scenario_spawn no_ssh_key [py "ssh"; py "-T"; py "git@github.com"]))
    as [Hmain Hcommands].
  - reflexivity.
  - reflexivity.
  - apply contains_false. reflexivity.
  - apply contains_false. reflexivity.
  - split; [rewrite Hcommands; reflexivity | rewrite Hmain; reflexivity].
Defined.


(** [dotfiles] listed under another URL: the same run. *)
Lemma existing_clone_ignores_url_witness :
  sync_repo (machine two_repos) [dotfiles; dotfiles_url] []
  = sync_repo (machine two_repos) [dotfiles; new_repo_url] [].
Proof.
  apply (existing_clone_ignores_url (machine two_repos) []). reflexivity.
Defined.
